(** * Student Performance Dashboard: the predictive analytics engine

  A shallow embedding of [lib/mlModels]: the linear regression predictor
  ([LinearRegressionModel]) and the k-means clusterer with its persona
  assignment ([StudentClusterer]).

  Numbers.  A TypeScript [number] is an IEEE 754 binary64 value, which is
  exactly Rocq's primitive [float]; arithmetic, comparisons, [Math.abs] and
  [Math.sqrt] are the primitive operations, so division by zero gives an
  infinity or NaN here as it does in the source.  [Math.pow(x, 2)] is taken
  to be [x * x].

  Arrays are lists.  Reading an index that is out of range gives
  [undefined] in the source, and every such value is consumed by arithmetic
  there, where it behaves as NaN: an out-of-range read is [nan].

  Exceptions.  A method returns a [result]: [Ok v], or [Throw e] for an
  exception.  [Math.random] is replaced by an explicit stream of draws. *)

From Stdlib Require Import String.
From Stdlib Require Import List ZArith Lia Bool Sorted Permutation.
From Stdlib Require Import Uint63 Floats.
Import ListNotations.

Set Warnings "-inexact-float".

Local Open Scope string_scope.
Local Open Scope list_scope.
Local Open Scope float_scope.

(** ** The number layer *)

Module Num.

(** [Boolean(v)] is false for a number [v] exactly when it is [+0], [-0] or NaN. *)
Definition falsy (v : float) : bool := is_zero v || is_nan v.

(** [v || d] for a number [v]. *)
Definition or_num (v d : float) : float := if falsy v then d else v.

(** [o || d] for an optional field [o]: [undefined] is falsy too. *)
Definition or_default (o : option float) (d : float) : float :=
  match o with
  | None => d
  | Some v => or_num v d
  end.

Definition is_neg_zero (v : float) : bool :=
  match classify v with
  | NZero => true
  | _ => false
  end.

(** [Math.max(a, b)]: NaN when an argument is NaN, and [+0] above [-0]. *)
Definition Math_max (a b : float) : float :=
  if is_nan a || is_nan b then nan
  else if a <? b then b
  else if b <? a then a
  else if is_neg_zero a then b else a.

(** [Math.min(a, b)]: NaN when an argument is NaN, and [-0] below [+0]. *)
Definition Math_min (a b : float) : float :=
  if is_nan a || is_nan b then nan
  else if a <? b then a
  else if b <? a then b
  else if is_neg_zero b then b else a.

Definition Math_abs (a : float) : float := abs a.
Definition Math_sqrt (a : float) : float := sqrt a.
Definition Math_pow2 (a : float) : float := a * a.

(** An array length or a counter as a number (exact below 2^53). *)
Definition of_nat (n : nat) : float := of_uint63 (Uint63.of_Z (Z.of_nat n)).

End Num.

(** ** Arrays and plain objects *)

Module Arr.

Definition get (l : list float) (i : nat) : float := nth i l nan.

(** [l[j] = v]: writing past the end extends the array; the holes read as
    [undefined], hence as NaN. *)
Fixpoint set (l : list float) (j : nat) (v : float) : list float :=
  match j, l with
  | O, [] => [v]
  | O, _ :: t => v :: t
  | S j', [] => nan :: set [] j' v
  | S j', x :: t => x :: set t j' v
  end.

(** Replacing an element that exists (the index is in range wherever the
    source does this to an array of rows). *)
Fixpoint update {A : Type} (l : list A) (i : nat) (v : A) : list A :=
  match l, i with
  | [], _ => []
  | _ :: t, O => v :: t
  | x :: t, S i' => x :: update t i' v
  end.

(** [l.map((x, i) => f i x)] *)
Fixpoint mapi_from {A B : Type} (f : nat -> A -> B) (i : nat) (l : list A) : list B :=
  match l with
  | [] => []
  | x :: t => f i x :: mapi_from f (S i) t
  end.

Definition mapi {A B : Type} (f : nat -> A -> B) (l : list A) : list B :=
  mapi_from f 0 l.

(** [l.reduce((acc, x, i) => f acc x i, a)] and [l.forEach((x, i) => ...)]
    on an accumulated state. *)
Fixpoint foldi_from {A B : Type} (f : B -> A -> nat -> B) (i : nat) (l : list A) (a : B) : B :=
  match l with
  | [] => a
  | x :: t => foldi_from f (S i) t (f a x i)
  end.

Definition foldi {A B : Type} (f : B -> A -> nat -> B) (l : list A) (a : B) : B :=
  foldi_from f 0 l a.

(** [Array(n).fill(0)] *)
Definition zeros (n : nat) : list float := repeat 0 n.

End Arr.

(** A [Record<string, number>]: the keys in insertion order, as
  [Object.keys] and [Object.values] enumerate them. *)
Module Obj.

Definition t := list (string * float).

Fixpoint get (o : t) (k : string) : float :=
  match o with
  | [] => nan
  | (k', v) :: rest => if String.eqb k' k then v else get rest k
  end.

Fixpoint set (o : t) (k : string) (v : float) : t :=
  match o with
  | [] => [(k, v)]
  | (k', v') :: rest =>
      if String.eqb k' k then (k', v) :: rest else (k', v') :: set rest k v
  end.

Definition keys (o : t) : list string := map fst o.
Definition values (o : t) : list float := map snd o.

End Obj.

(** ** Exceptions *)

(** [NotTrainedError] is the [Error] thrown by [predict]'s guard and
  [TypeError] is the runtime's exception for reading a property of
  [undefined].  [EmptyDatasetError] and [SingularMatrixError] are the two
  other failures the specification names; no statement of the source
  raises them. *)
Inductive error : Set :=
| NotTrainedError
| EmptyDatasetError
| SingularMatrixError
| TypeError.

Inductive result (A : Type) : Type :=
| Ok (a : A)
| Throw (e : error).

Arguments Ok {A} a.
Arguments Throw {A} e.

Definition bind {A B : Type} (r : result A) (f : A -> result B) : result B :=
match r with
| Ok a => f a
| Throw e => Throw e
end.

Notation "x <- r ;; k" := (bind r (fun x => k))
(at level 61, r at next level, right associativity).

(** ** Records *)

Record Student : Type := {
student_id : string;
name : string;
class : string;
comprehension : float;
attention : float;
focus : float;
retention : float;
assessment_score : float;
engagement_time : float
}.

(** [Partial<Student>]: every field may be absent. *)
Record PartialStudent : Type := {
p_student_id : option string;
p_name : option string;
p_class : option string;
p_comprehension : option float;
p_attention : option float;
p_focus : option float;
p_retention : option float;
p_assessment_score : option float;
p_engagement_time : option float
}.

Definition partial_of (s : Student) : PartialStudent := {|
p_student_id := Some (student_id s);
p_name := Some (name s);
p_class := Some (class s);
p_comprehension := Some (comprehension s);
p_attention := Some (attention s);
p_focus := Some (focus s);
p_retention := Some (retention s);
p_assessment_score := Some (assessment_score s);
p_engagement_time := Some (engagement_time s)
|}.

Record MLPrediction : Type := {
predicted_score : float;
confidence : float;
feature_importance : Obj.t
}.

Record ClusterResult : Type := {
cluster_id : nat;
persona : string;
description : string;
characteristics : Obj.t
}.

Abbreviation matrix := (list (list float)).

(** ** LinearRegressionModel *)

Module LinearRegressionModel.

Record t : Type := {
  coefficients : Obj.t;
  intercept : float;
  isTrained : bool
}.

(** [new LinearRegressionModel()] *)
Definition new : t := {| coefficients := []; intercept := 0; isTrained := false |}.

Definition featureNames : list string :=
  ["comprehension"; "attention"; "focus"; "retention"; "engagement_time"].

Definition transpose (m : matrix) : result matrix :=
  match m with
  | [] => Throw TypeError
  | row0 :: _ =>
      Ok (map (fun colIndex => map (fun row => Arr.get row colIndex) m)
              (seq 0 (length row0)))
  end.

Definition matrixMultiply (a b : matrix) : result matrix :=
  match a, b with
  | [], _ => Ok []
  | _ :: _, [] => Throw TypeError
  | _ :: _, b0 :: _ =>
      Ok (map (fun a_i =>
                 map (fun j =>
                        fold_left
                          (fun acc k => acc + Arr.get a_i k * Arr.get (nth k b []) j)
                          (seq 0 (length b)) 0)
                     (seq 0 (length b0)))
              a)
  end.

Definition vectorMultiply (m : matrix) (vector : list float) : list float :=
  map (fun row =>
         Arr.foldi (fun sum val index => sum + val * Arr.get vector index) row 0)
      m.

Definition identity (n : nat) : matrix :=
  map (fun i => map (fun j => if Nat.eqb i j then 1 else 0) (seq 0 n)) (seq 0 n).

Definition augment (m : matrix) : matrix :=
  let id := identity (length m) in
  Arr.mapi (fun i row => row ++ nth i id []) m.

Definition entry (aug : matrix) (r c : nat) : float := Arr.get (nth r aug []) c.

(** The pivot search of column [i]: among the rows [i] to [n - 1], the one
    with the largest absolute value in that column, the first among equals. *)
Definition find_pivot_row (n : nat) (aug : matrix) (i : nat) : nat :=
  fold_left
    (fun maxRow k =>
       if Num.Math_abs (entry aug maxRow i) <? Num.Math_abs (entry aug k i)
       then k else maxRow)
    (seq (i + 1) (n - (i + 1))) i.

Definition swap_rows (aug : matrix) (i j : nat) : matrix :=
  let ri := nth i aug [] in
  let rj := nth j aug [] in
  Arr.update (Arr.update aug i rj) j ri.

(** [for j < 2n: row[j] /= pivot] *)
Definition scale_row (n : nat) (row : list float) (pivot : float) : list float :=
  fold_left (fun r j => Arr.set r j (Arr.get r j / pivot)) (seq 0 (2 * n)) row.

(** [for j < 2n: row[j] -= factor * pivot_row[j]] *)
Definition eliminate_row (n : nat) (pivot_row row : list float) (factor : float)
  : list float :=
  fold_left (fun r j => Arr.set r j (Arr.get r j - factor * Arr.get pivot_row j))
            (seq 0 (2 * n)) row.

(** One round of the Gaussian elimination, for column [i]. *)
Definition gauss_step (n : nat) (aug : matrix) (i : nat) : matrix :=
  let maxRow := find_pivot_row n aug i in
  let aug1 := swap_rows aug i maxRow in
  let pivot := entry aug1 i i in
  let aug2 := Arr.update aug1 i (scale_row n (nth i aug1 []) pivot) in
  let pivot_row := nth i aug2 [] in
  Arr.mapi (fun k row =>
              if Nat.eqb k i then row
              else eliminate_row n pivot_row row (Arr.get row i))
           aug2.

Definition matrixInverse (m : matrix) : matrix :=
  let n := length m in
  let reduced := fold_left (gauss_step n) (seq 0 n) (augment m) in
  map (skipn n) reduced.

Record Fit : Type := {
  fit_intercept : float;
  fit_coefficients : Obj.t
}.

Definition fitLinearRegression (X : matrix) (y : list float) (names : list string)
  : result Fit :=
  match X with
  | [] => Throw TypeError   (* X[0].length *)
  | _ :: _ =>
      let XWithIntercept := map (fun row => 1 :: row) X in
      XTranspose <- transpose XWithIntercept ;;
      XTX <- matrixMultiply XTranspose XWithIntercept ;;
      let XTXInverse := matrixInverse XTX in
      let XTy := vectorMultiply XTranspose y in
      let coeffs := vectorMultiply XTXInverse XTy in
      let coefs :=
        Arr.foldi (fun o nm index => Obj.set o nm (Arr.get coeffs (index + 1)))
                  names [] in
      Ok {| fit_intercept := Arr.get coeffs 0; fit_coefficients := coefs |}
  end.

(** [train] assigns the three fields only after the fit has returned: an
    exception leaves the model as it was. *)
Definition train (m : t) (students : list Student) : result t :=
  let X := map (fun s => [comprehension s; attention s; focus s; retention s;
                          engagement_time s / 100]) students in
  let y := map assessment_score students in
  r <- fitLinearRegression X y featureNames ;;
  Ok {| coefficients := fit_coefficients r;
        intercept := fit_intercept r;
        isTrained := true |}.

Definition features_of (student : PartialStudent) : list float :=
  [ Num.or_default (p_comprehension student) 0;
    Num.or_default (p_attention student) 0;
    Num.or_default (p_focus student) 0;
    Num.or_default (p_retention student) 0;
    Num.or_default (p_engagement_time student) 0 / 100 ].

(** The [forEach] over the features: the running prediction and the
    importance object it fills. *)
Definition accumulate (m : t) (features : list float) : float * Obj.t :=
  Arr.foldi
    (fun (st : float * Obj.t) value index =>
       let nm := nth index featureNames "" in
       let contribution := value * Obj.get (coefficients m) nm in
       (fst st + contribution,
        Obj.set (snd st) nm (Num.Math_abs (Obj.get (coefficients m) nm))))
    features (intercept m, []).

Definition normalize_importance (importance : Obj.t) : Obj.t :=
  let totalImportance := fold_left (fun sum val => sum + val) (Obj.values importance) 0 in
  fold_left (fun o key => Obj.set o key (Obj.get o key / totalImportance * 100))
            (Obj.keys importance) importance.

Definition confidence_of (prediction : float) : float :=
  Num.Math_max 0.6 (Num.Math_min 0.95 (1 - Num.Math_abs (prediction - 75) / 100)).

Definition predict (m : t) (student : PartialStudent) : result MLPrediction :=
  if negb (isTrained m) then Throw NotTrainedError
  else
    let '(prediction, importance) := accumulate m (features_of student) in
    Ok {| predicted_score := Num.Math_max 0 (Num.Math_min 100 prediction);
          confidence := confidence_of prediction;
          feature_importance := normalize_importance importance |}.

Record ModelSummary : Type := {
  summary_type : string;
  summary_coefficients : Obj.t;
  summary_intercept : float;
  summary_trained : bool
}.

Definition getModelSummary (m : t) : result ModelSummary :=
  Ok {| summary_type := "Linear Regression";
        summary_coefficients := coefficients m;
        summary_intercept := intercept m;
        summary_trained := isTrained m |}.

End LinearRegressionModel.

(** ** StudentClusterer *)

Module StudentClusterer.

Record t : Type := {
  clusters : list ClusterResult;
  centroids : matrix;
  isTrained : bool
}.

(** [new StudentClusterer()] *)
Definition new : t := {| clusters := []; centroids := []; isTrained := false |}.

Definition euclideanDistance (a b : list float) : float :=
  Num.Math_sqrt
    (Arr.foldi (fun sum val index => sum + Num.Math_pow2 (val - Arr.get b index)) a 0).

(** The search for the nearest centroid, shared by [kmeans] and
    [predictCluster]: a strictly smaller distance replaces the current one,
    so the first of several nearest centroids wins, and index 0 stands when
    no distance is below [Infinity]. *)
Definition nearer (point : list float) (st : float * nat) (centroid : list float)
  (index : nat) : float * nat :=
  let distance := euclideanDistance point centroid in
  if distance <? fst st then (distance, index) else st.

Definition nearest (point : list float) (cs : matrix) : nat :=
  snd (Arr.foldi (nearer point) cs (infinity, 0%nat)).

(** *** normalizeFeatures *)

Definition feature_means (features : matrix) (numFeatures : nat) : list float :=
  let sums :=
    fold_left
      (fun means row =>
         Arr.foldi (fun means val index => Arr.set means index (Arr.get means index + val))
                   row means)
      features (Arr.zeros numFeatures) in
  map (fun sum => sum / Num.of_nat (length features)) sums.

Definition feature_stds (features : matrix) (numFeatures : nat) (means : list float)
  : list float :=
  let sums :=
    fold_left
      (fun stds row =>
         Arr.foldi
           (fun stds val index =>
              Arr.set stds index
                      (Arr.get stds index + Num.Math_pow2 (val - Arr.get means index)))
           row stds)
      features (Arr.zeros numFeatures) in
  map (fun sum => Num.Math_sqrt (sum / Num.of_nat (length features))) sums.

Definition zscore_row (means stds row : list float) : list float :=
  Arr.mapi
    (fun index val => (val - Arr.get means index) / Num.or_num (Arr.get stds index) 1)
    row.

Definition normalizeFeatures (features : matrix) : result matrix :=
  match features with
  | [] => Throw TypeError   (* features[0].length *)
  | row0 :: _ =>
      let numFeatures := length row0 in
      let means := feature_means features numFeatures in
      let stds := feature_stds features numFeatures means in
      Ok (map (zscore_row means stds) features)
  end.

(** *** kmeans *)

(** The [k] initial centroids: [rnd i] is the value of
    [Math.floor(Math.random() * n)] at the [i]-th draw. *)
Fixpoint pick_centroids (rnd : nat -> nat) (data : matrix) (i k : nat) : result matrix :=
  match k with
  | O => Ok []
  | S k' =>
      match nth_error data (rnd i) with
      | None => Throw TypeError   (* undefined.slice() *)
      | Some point =>
          rest <- pick_centroids rnd data (S i) k' ;;
          Ok (point :: rest)
      end
  end.

Definition assign (data cs : matrix) : list nat :=
  map (fun point => nearest point cs) data.

(** [newLabels.every((label, index) => label === labels[index])] *)
Definition converged (newLabels labels : list nat) : bool :=
  Arr.foldi
    (fun ok label index =>
       ok && match nth_error labels index with
             | Some l => Nat.eqb label l
             | None => false
             end)
    newLabels true.

(** [point.forEach((val, dim) => centroid[dim] += val)] *)
Definition add_point (centroid point : list float) : list float :=
  Arr.foldi (fun c val dim => Arr.set c dim (Arr.get c dim + val)) point centroid.

(** The body of [data.forEach] in the centroid update.  A label outside
    the [k] centroids makes [newCentroids[cluster][dim]] a read on
    [undefined], which throws as soon as the point has a dimension; the write
    [counts[cluster]++] it does first lands at an index that is never read,
    and is dropped. *)
Definition add_to_cluster (st : matrix * list nat) (cluster : nat) (point : list float)
  : result (matrix * list nat) :=
  let '(newCentroids, counts) := st in
  let counts' := Arr.update counts cluster (S (nth cluster counts 0%nat)) in
  match nth_error newCentroids cluster with
  | Some centroid =>
      Ok (Arr.update newCentroids cluster (add_point centroid point), counts')
  | None =>
      match point with
      | [] => Ok (newCentroids, counts')
      | _ :: _ => Throw TypeError
      end
  end.

Fixpoint accumulate_points (data : matrix) (index : nat) (labels : list nat)
  (st : matrix * list nat) : result (matrix * list nat) :=
  match data with
  | [] => Ok st
  | point :: rest =>
      st' <- add_to_cluster st (nth index labels 0%nat) point ;;
      accumulate_points rest (S index) labels st'
  end.

(** [newCentroids.forEach]: the sums of a cluster that has points are
    divided by their number. *)
Definition finish_centroid (counts : list nat) (index : nat) (centroid : list float)
  : list float :=
  let count := nth index counts 0%nat in
  if Nat.ltb 0 count then map (fun sum => sum / Num.of_nat count) centroid
  else centroid.

Definition update_centroids (data : matrix) (labels : list nat) (k d : nat)
  : result matrix :=
  st <- accumulate_points data 0 labels (repeat (Arr.zeros d) k, repeat 0%nat k) ;;
  Ok (Arr.mapi (finish_centroid (snd st)) (fst st)).

(** One pass of the [for] loop: [None] is the [break]. *)
Definition kmeans_iteration (data : matrix) (k d : nat) (st : list nat * matrix)
  : result (option (list nat * matrix)) :=
  let '(labels, cs) := st in
  let newLabels := assign data cs in
  if converged newLabels labels then Ok None
  else
    newCentroids <- update_centroids data newLabels k d ;;
    Ok (Some (newLabels, newCentroids)).

Fixpoint kmeans_loop (iterations : nat) (data : matrix) (k d : nat)
  (st : list nat * matrix) : result (list nat * matrix) :=
  match iterations with
  | O => Ok st
  | S iterations' =>
      step <- kmeans_iteration data k d st ;;
      match step with
      | None => Ok st
      | Some st' => kmeans_loop iterations' data k d st'
      end
  end.

Definition kmeans (rnd : nat -> nat) (data : matrix) (k maxIterations : nat)
  : result (list nat * matrix) :=
  match data with
  | [] => Throw TypeError   (* data[0].length *)
  | point0 :: _ =>
      let n := length data in
      let d := length point0 in
      cs <- pick_centroids rnd data 0 k ;;
      kmeans_loop maxIterations data k d (repeat 0%nat n, cs)
  end.

(** *** clusterStudents *)

Record Persona : Type := {
  persona_id : nat;
  persona_name : string;
  persona_description : string
}.

Definition personas : list Persona :=
  [ {| persona_id := 0; persona_name := "High Achievers";
       persona_description := "Excellent performance across all cognitive skills" |};
    {| persona_id := 1; persona_name := "Balanced Learners";
       persona_description := "Good overall performance with consistent skills" |};
    {| persona_id := 2; persona_name := "Developing Students";
       persona_description := "Average performance with room for improvement" |};
    {| persona_id := 3; persona_name := "Struggling Learners";
       persona_description := "Lower performance requiring targeted support" |} ].

Definition centroid_average (centroid : list float) : float :=
  fold_left (fun sum val => sum + val) centroid 0 / Num.of_nat (length centroid).

(** An entry [{ index, average }] of [centroidAverages]. *)
Abbreviation Ranked := (nat * float)%type.

Definition comparator (a b : Ranked) : float := snd b - snd a.

(** [Array.prototype.sort] is stable and puts [a] after [b] exactly when the
    comparator is positive on [(a, b)]; a stable insertion sort does that. *)
Fixpoint insert (x : Ranked) (l : list Ranked) : list Ranked :=
  match l with
  | [] => [x]
  | y :: rest => if 0 <? comparator x y then y :: insert x rest else x :: l
  end.

Definition sort (l : list Ranked) : list Ranked := fold_right insert [] l.

Definition centroidAverages (cs : matrix) : list Ranked :=
  sort (Arr.mapi (fun index centroid => (index, centroid_average centroid)) cs).

(** [students.filter((_, index) => labels[index] === id)] *)
Fixpoint members_from (students : list Student) (index : nat) (labels : list nat) (id : nat)
  : list Student :=
  match students with
  | [] => []
  | s :: rest =>
      let keep := match nth_error labels index with
                  | Some l => Nat.eqb l id
                  | None => false
                  end in
      if keep then s :: members_from rest (S index) labels id
      else members_from rest (S index) labels id
  end.

Definition summarize (students : list Student) (labels : list nat) (cs : matrix)
  (personaIndex : nat) (item : Ranked) : result ClusterResult :=
  let centroid := nth (fst item) cs [] in
  let studentsInCluster := members_from students 0 labels (fst item) in
  match nth_error personas personaIndex with
  | None => Throw TypeError   (* personas[personaIndex].name *)
  | Some p =>
      Ok {| cluster_id := fst item;
            persona := persona_name p;
            description := persona_description p;
            characteristics :=
              [ ("comprehension", Arr.get centroid 0 * 100);
                ("attention", Arr.get centroid 1 * 100);
                ("focus", Arr.get centroid 2 * 100);
                ("retention", Arr.get centroid 3 * 100);
                ("count", Num.of_nat (length studentsInCluster));
                ("avg_assessment_score",
                  fold_left (fun sum s => sum + assessment_score s) studentsInCluster 0
                  / Num.of_nat (length studentsInCluster)) ] |}
  end.

Fixpoint summarize_all (students : list Student) (labels : list nat) (cs : matrix)
  (personaIndex : nat) (items : list Ranked) : result (list ClusterResult) :=
  match items with
  | [] => Ok []
  | item :: rest =>
      c <- summarize students labels cs personaIndex item ;;
      cl <- summarize_all students labels cs (S personaIndex) rest ;;
      Ok (c :: cl)
  end.

(** The method mutates the clusterer: the state after the call comes with
    its result.  [centroids] and [isTrained] are assigned before the
    personas are, so an exception there leaves them set. *)
Definition clusterStudents (rnd : nat -> nat) (c : t) (students : list Student)
  (numClusters : nat) : t * result (list ClusterResult) :=
  let features :=
    map (fun s => [comprehension s; attention s; focus s; retention s]) students in
  match normalizeFeatures features with
  | Throw e => (c, Throw e)
  | Ok normalizedFeatures =>
      match kmeans rnd normalizedFeatures numClusters 100 with
      | Throw e => (c, Throw e)
      | Ok (labels, cs) =>
          let c1 := {| clusters := clusters c; centroids := cs; isTrained := true |} in
          match summarize_all students labels cs 0 (centroidAverages cs) with
          | Throw e => (c1, Throw e)
          | Ok cl => ({| clusters := cl; centroids := cs; isTrained := true |}, Ok cl)
          end
      end
  end.

Definition cluster_features (student : PartialStudent) : list float :=
  [ Num.or_default (p_comprehension student) 0 / 100;
    Num.or_default (p_attention student) 0 / 100;
    Num.or_default (p_focus student) 0 / 100;
    Num.or_default (p_retention student) 0 / 100 ].

(** [null] is [None]. *)
Definition predictCluster (c : t) (student : PartialStudent) : option ClusterResult :=
  if negb (isTrained c) then None
  else
    let nearestCluster := nearest (cluster_features student) (centroids c) in
    find (fun cl => Nat.eqb (cluster_id cl) nearestCluster) (clusters c).

Definition getClusters (c : t) : list ClusterResult := clusters c.

End StudentClusterer.

(** ** Definitions used by the statements *)

(** The five numeric fields [predict] and [predictCluster] read from a
    partial record. *)
Inductive Field : Set :=
| Comprehension
| Attention
| Focus
| Retention
| EngagementTime.

Definition get_field (f : Field) (s : PartialStudent) : option float :=
  match f with
  | Comprehension => p_comprehension s
  | Attention => p_attention s
  | Focus => p_focus s
  | Retention => p_retention s
  | EngagementTime => p_engagement_time s
  end.

Definition set_field (f : Field) (v : option float) (s : PartialStudent) : PartialStudent :=
  {| p_student_id := p_student_id s;
     p_name := p_name s;
     p_class := p_class s;
     p_comprehension := match f with Comprehension => v | _ => p_comprehension s end;
     p_attention := match f with Attention => v | _ => p_attention s end;
     p_focus := match f with Focus => v | _ => p_focus s end;
     p_retention := match f with Retention => v | _ => p_retention s end;
     p_assessment_score := p_assessment_score s;
     p_engagement_time := match f with EngagementTime => v | _ => p_engagement_time s end |}.

(** The states a [LinearRegressionModel] can be in: the fresh object, and
    what a [train] that returned leaves ([train] is the only method that
    assigns a field, and a [train] that throws assigns none). *)
Inductive reachable : LinearRegressionModel.t -> Prop :=
| reachable_new : reachable LinearRegressionModel.new
| reachable_train (m m' : LinearRegressionModel.t) (students : list Student) :
    reachable m ->
    LinearRegressionModel.train m students = Ok m' ->
    reachable m'.

(** The points of [data] that carry the label [c], in the order of [data]. *)
Fixpoint assigned_from (data : matrix) (index : nat) (labels : list nat) (c : nat) : matrix :=
  match data with
  | [] => []
  | point :: rest =>
      if Nat.eqb (nth index labels 0%nat) c
      then point :: assigned_from rest (S index) labels c
      else assigned_from rest (S index) labels c
  end.

Definition assigned (data : matrix) (labels : list nat) (c : nat) : matrix :=
  assigned_from data 0 labels c.

(** The mean of a list of [d]-dimensional points: the coordinates summed
    in order from zero, each sum divided by the number of points. *)
Definition mean_point (points : matrix) (d : nat) : list float :=
  map (fun sum => sum / Num.of_nat (length points))
      (fold_left StudentClusterer.add_point points (Arr.zeros d)).

(** What the specification asks of [predictCluster]: the z-score of the
    record under the mean and standard deviation of the training set, then
    the nearest centroid. *)
Definition predictCluster_zscore (training : list Student) (c : StudentClusterer.t)
  (student : PartialStudent) : option ClusterResult :=
  if negb (StudentClusterer.isTrained c) then None
  else
    let features :=
      map (fun s => [comprehension s; attention s; focus s; retention s]) training in
    let means := StudentClusterer.feature_means features 4 in
    let stds := StudentClusterer.feature_stds features 4 means in
    let z := StudentClusterer.zscore_row means stds
               [ Num.or_default (p_comprehension student) 0;
                 Num.or_default (p_attention student) 0;
                 Num.or_default (p_focus student) 0;
                 Num.or_default (p_retention student) 0 ] in
    let nearestCluster := StudentClusterer.nearest z (StudentClusterer.centroids c) in
    find (fun cl => Nat.eqb (cluster_id cl) nearestCluster) (StudentClusterer.clusters c).

(** *** Sample records *)

Definition mkStudent (id : string) (c a f r y e : float) : Student :=
  {| student_id := id; name := id; class := "A";
     comprehension := c; attention := a; focus := f; retention := r;
     assessment_score := y; engagement_time := e |}.

Definition solo : Student := mkStudent "S001" 80 70 60 50 75 100.
Definition low : Student := mkStudent "S002" 10 10 10 10 10 100.
Definition high : Student := mkStudent "S003" 90 90 90 90 90 100.

(** Eight records of full rank: [y = 2 f1 + 3 f2 + 1]. *)
Definition cohort : list Student :=
  [ mkStudent "T1" 1 0 0 0 3 100; mkStudent "T2" 0 1 0 0 4 200;
    mkStudent "T3" 0 0 1 0 1 300; mkStudent "T4" 0 0 0 1 1 400;
    mkStudent "T5" 1 1 0 0 6 500; mkStudent "T6" 2 1 1 7 8 100;
    mkStudent "T7" 5 1 3 0 14 200; mkStudent "T8" 3 3 3 1 16 250 ].

(** Eight records of full rank: [y = 2 f1 - 2 f2 + 50]. *)
Definition cohort_signed : list Student :=
  [ mkStudent "U1" 10 0 0 0 70 100; mkStudent "U2" 0 10 0 0 30 200;
    mkStudent "U3" 0 0 10 0 50 300; mkStudent "U4" 0 0 0 10 50 400;
    mkStudent "U5" 10 10 0 0 50 500; mkStudent "U6" 20 10 10 70 70 100;
    mkStudent "U7" 30 10 30 0 90 200; mkStudent "U8" 30 30 30 10 50 250 ].

Definition empty_record : PartialStudent :=
  {| p_student_id := None; p_name := None; p_class := None;
     p_comprehension := None; p_attention := None; p_focus := None;
     p_retention := None; p_assessment_score := None; p_engagement_time := None |}.

(** A record with two features of very large magnitude. *)
Definition huge_record : PartialStudent :=
  {| p_student_id := None; p_name := None; p_class := None;
     p_comprehension := Some 1.7e308; p_attention := Some 1.7e308; p_focus := None;
     p_retention := None; p_assessment_score := None; p_engagement_time := None |}.

(** The draws [0, 1, 2, ...]. *)
Definition draw_id (i : nat) : nat := i.
(** The draws [0, 1, ..., n - 1, 0, 1, ...]. *)
Definition draw_cycle (n i : nat) : nat := Nat.modulo i n.
(** Every draw is [0]. *)
Definition draw_first (i : nat) : nat := 0%nat.

(** The model fitted on [cohort]. *)
Definition trained_cohort : LinearRegressionModel.t :=
  match LinearRegressionModel.train LinearRegressionModel.new cohort with
  | Ok m => m
  | Throw _ => LinearRegressionModel.new
  end.

(** *** Numbers as the IEEE 754 specification sees them *)

Definition SF_is_nan (x : spec_float) : bool :=
  match x with
  | S754_nan => true
  | _ => false
  end.

Definition SF_is_inf (x : spec_float) : bool :=
  match x with
  | S754_infinity _ => true
  | _ => false
  end.

(** A finite non-zero number or an infinity, of sign [s]. *)
Definition signed_nonzero (s : bool) (x : spec_float) : Prop :=
  match x with
  | S754_finite s' _ _ => s' = s
  | S754_infinity s' => s' = s
  | _ => False
  end.

(** The order of the ranking: [a] may stand before [b] when the average of
    [b] is at most that of [a]. *)
Definition ranks_before (a b : StudentClusterer.Ranked) : Prop :=
  (snd b <=? snd a) = true.

(** The mean of a centroid's four feature dimensions, as the
    specification words it; a dimension that is missing reads as NaN. *)
Definition mean_of_four (centroid : list float) : float :=
  (nth 0 centroid nan + nth 1 centroid nan + nth 2 centroid nan + nth 3 centroid nan) / 4.

(** The mean of the centroid that k-means numbered [id]. *)
Definition centroid_mean (c : StudentClusterer.t) (id : nat) : float :=
  mean_of_four (nth id (StudentClusterer.centroids c) []).

(** Two numbers that are equal, or are the zeros [+0] and [-0] in this
    order. *)
Definition zero_sign_apart (a b : float) : Prop :=
  a = b \/ (Prim2SF a = S754_zero false /\ Prim2SF b = S754_zero true).

(** ** Model metrics *)

Module Metrics.

Definition sum (l : list float) : float := fold_left (fun a b => a + b) l 0.

Definition actualMean (actual : list float) : float :=
  sum actual / Num.of_nat (length actual).

Definition totalSumSquares (actual : list float) : float :=
  fold_left (fun sum val => sum + Num.Math_pow2 (val - actualMean actual)) actual 0.

Definition residualSumSquares (actual predicted : list float) : float :=
  Arr.foldi (fun sum val index => sum + Num.Math_pow2 (val - Arr.get predicted index))
            actual 0.

Definition calculateR2Score (actual predicted : list float) : float :=
  1 - residualSumSquares actual predicted / totalSumSquares actual.

Definition calculateMSE (actual predicted : list float) : float :=
  let squaredErrors :=
    Arr.mapi (fun index val => Num.Math_pow2 (val - Arr.get predicted index)) actual in
  sum squaredErrors / Num.of_nat (length actual).

(** The sum of the products [x[i] * y[i]] over the indices of [x]. *)
Definition sumProducts (x y : list float) : float :=
  Arr.foldi (fun acc curr i => acc + curr * Arr.get y i) x 0.

Definition sumSquares (x : list float) : float :=
  fold_left (fun acc curr => acc + curr * curr) x 0.

Definition correlationDenominator (x y : list float) : float :=
  let n := Num.of_nat (length x) in
  Num.Math_sqrt ((n * sumSquares x - sum x * sum x) * (n * sumSquares y - sum y * sum y)).

Definition calculateCorrelation (x y : list float) : float :=
  let n := Num.of_nat (length x) in
  let numerator := n * sumProducts x y - sum x * sum y in
  let denominator := correlationDenominator x y in
  if denominator =? 0 then 0 else numerator / denominator.

End Metrics.

(** ** Utilities ([lib/utils]) *)

Module Utils.

Record PerformanceLevel : Type := {
  level : string;
  color : string;
  bgColor : string
}.

Definition getPerformanceLevel (score : float) : PerformanceLevel :=
  if 90 <=? score then
    {| level := "Excellent"; color := "text-green-700"; bgColor := "bg-green-100" |}
  else if 80 <=? score then
    {| level := "Good"; color := "text-blue-700"; bgColor := "bg-blue-100" |}
  else if 70 <=? score then
    {| level := "Average"; color := "text-yellow-700"; bgColor := "bg-yellow-100" |}
  else if 60 <=? score then
    {| level := "Below Average"; color := "text-orange-700"; bgColor := "bg-orange-100" |}
  else
    {| level := "Poor"; color := "text-red-700"; bgColor := "bg-red-100" |}.

End Utils.

(** ** Data generation ([data/generateStudentData]) *)

Module DataGen.

(** [generateCorrelatedValue]; [r1] and [r2] are its two [Math.random()]
    draws, in the order they are made. *)
Definition generateCorrelatedValue (r1 r2 : float) (baseValue correlation variance : float)
  : float :=
  let noise := (r1 - 0.5) * variance * 2 in
  let correlatedValue :=
    baseValue * correlation + noise + (r2 - 0.5) * (100 - baseValue * correlation) in
  Num.Math_max 0 (Num.Math_min 100 correlatedValue).

End DataGen.

(** ** The dashboard ([components/Dashboard]) *)

Module Dashboard.

Record Correlations : Type := {
  comprehensionScore : float;
  attentionScore : float;
  focusScore : float;
  retentionScore : float;
  engagementScore : float
}.

Record DashboardStats : Type := {
  totalStudents : nat;
  averageScore : float;
  averageComprehension : float;
  averageAttention : float;
  averageFocus : float;
  averageRetention : float;
  averageEngagement : float;
  topPerformers : nat;
  strugglingStudents : nat;
  correlations : Correlations
}.

Definition filteredStudents (students : list Student) (selectedClass : string)
  : list Student :=
  if String.eqb selectedClass "all" then students
  else filter (fun student => String.eqb (class student) selectedClass) students.

Definition average (field : Student -> float) (students : list Student) : float :=
  fold_left (fun sum s => sum + field s) students 0 / Num.of_nat (length students).

Definition stats (filtered : list Student) : DashboardStats :=
  let total := length filtered in
  if Nat.eqb total 0 then
    {| totalStudents := 0;
       averageScore := 0; averageComprehension := 0; averageAttention := 0;
       averageFocus := 0; averageRetention := 0; averageEngagement := 0;
       topPerformers := 0; strugglingStudents := 0;
       correlations :=
         {| comprehensionScore := 0; attentionScore := 0; focusScore := 0;
            retentionScore := 0; engagementScore := 0 |} |}
  else
    let scores := map assessment_score filtered in
    {| totalStudents := total;
       averageScore := average assessment_score filtered;
       averageComprehension := average comprehension filtered;
       averageAttention := average attention filtered;
       averageFocus := average focus filtered;
       averageRetention := average retention filtered;
       averageEngagement := average engagement_time filtered;
       topPerformers :=
         length (filter (fun s => 85 <=? assessment_score s) filtered);
       strugglingStudents :=
         length (filter (fun s => assessment_score s <? 60) filtered);
       correlations :=
         {| comprehensionScore :=
              Metrics.calculateCorrelation (map comprehension filtered) scores;
            attentionScore :=
              Metrics.calculateCorrelation (map attention filtered) scores;
            focusScore := Metrics.calculateCorrelation (map focus filtered) scores;
            retentionScore :=
              Metrics.calculateCorrelation (map retention filtered) scores;
            engagementScore :=
              Metrics.calculateCorrelation (map engagement_time filtered) scores |} |}.

(** [initializeModels]: the two models after the effect has run.  [train]
    and [clusterStudents] sit in one [try] block, so a [train] that throws
    skips the clustering; the [catch] only logs. *)
Definition initializeModels (rnd : nat -> nat)
  (mlModel : LinearRegressionModel.t) (clusterer : StudentClusterer.t)
  (students : list Student) : LinearRegressionModel.t * StudentClusterer.t :=
  match LinearRegressionModel.train mlModel students with
  | Throw _ => (mlModel, clusterer)
  | Ok mlModel' =>
      (mlModel', fst (StudentClusterer.clusterStudents rnd clusterer students 4))
  end.

End Dashboard.

(** ** The insights ([components/InsightsSection]) *)

Module Insights.

Record ModelPerformance : Type := {
  r2Score : float;
  mse : float;
  accuracy : string
}.

(** [students.map(student => mlModel.predict(student).predicted_score)] *)
Fixpoint predictions (mlModel : LinearRegressionModel.t) (students : list Student)
  : result (list float) :=
  match students with
  | [] => Ok []
  | student :: rest =>
      p <- LinearRegressionModel.predict mlModel (partial_of student) ;;
      ps <- predictions mlModel rest ;;
      Ok (predicted_score p :: ps)
  end.

Definition modelPerformance (mlModel : LinearRegressionModel.t) (students : list Student)
  : result ModelPerformance :=
  preds <- predictions mlModel students ;;
  let actualScores := map assessment_score students in
  let r2 := Metrics.calculateR2Score actualScores preds in
  let mse := Metrics.calculateMSE actualScores preds in
  Ok {| r2Score := r2;
        mse := mse;
        accuracy := if 0.8 <? r2 then "High"
                    else if 0.6 <? r2 then "Good"
                    else if 0.4 <? r2 then "Moderate"
                    else "Low" |}.

End Insights.

(** ** Further definitions used by the statements *)

Definition SF_sign_clear (x : spec_float) : bool :=
  match x with
  | S754_nan => true
  | S754_zero s | S754_infinity s | S754_finite s _ _ => negb s
  end.

Definition SF_has_sign (s : bool) (x : spec_float) : Prop :=
  match x with
  | S754_nan => False
  | S754_zero s' | S754_infinity s' | S754_finite s' _ _ => s' = s
  end.

(** A number whose sign bit is clear, or NaN. *)
Definition sign_clear (v : float) : Prop := SF_sign_clear (Prim2SF v) = true.

(** NaN, or a number that is at least zero. *)
Definition nan_or_nonneg (v : float) : Prop :=
  is_nan v = true \/ (0 <=? v) = true.

(** The levels of [getPerformanceLevel], lowest first. *)
Definition level_rank (l : string) : nat :=
  if String.eqb l "Excellent" then 4
  else if String.eqb l "Good" then 3
  else if String.eqb l "Average" then 2
  else if String.eqb l "Below Average" then 1
  else 0.

(** * Properties *)

(** ** Regression: training *)

Section Training.
Import LinearRegressionModel.

Lemma transpose_ok (row0 : list float) (rows : matrix) :
  exists t, transpose (row0 :: rows) = Ok t /\ length t = length row0.
Proof.
  eexists; split; [reflexivity|].
  now rewrite length_map, length_seq.
Qed.

Lemma matrixMultiply_ok (a b : matrix) :
  b <> [] -> exists p, matrixMultiply a b = Ok p.
Proof.
  intros Hb. destruct a as [|a0 a]; [now eexists|].
  destruct b as [|b0 b]; [contradiction|]. now eexists.
Qed.

Lemma fit_ok (X : matrix) (y : list float) (names : list string) :
  X <> [] -> exists r, fitLinearRegression X y names = Ok r.
Proof.
  intros HX. destruct X as [|x0 X]; [contradiction|].
  unfold fitLinearRegression.
  cbn [map].
  destruct (transpose_ok (1 :: x0) (map (fun row => 1 :: row) X)) as [t [Ht _]].
  rewrite Ht. cbn [bind].
  destruct (matrixMultiply_ok t ((1 :: x0) :: map (fun row => 1 :: row) X)) as [p Hp];
    [discriminate|].
  rewrite Hp. cbn [bind]. now eexists.
Qed.

(** C5 (as amended).  [train] on the empty list fails, with the runtime's
    [TypeError]: [fitLinearRegression] reads [X[0].length] of an empty
    design matrix.  No field of the model has been assigned by then. *)
Theorem train_empty_throws_TypeError :
  forall m : t, train m [] = Throw TypeError.
Proof.
  intros m. reflexivity.
Qed.

(** C5, the claim as written fails: the exception of [train([])] is not an
    [EmptyDatasetError]. *)
Lemma train_empty_not_EmptyDatasetError :
  train new [] <> Throw EmptyDatasetError.
Proof.
  cbv. discriminate.
Qed.

Lemma train_sets_flag (m m' : t) (students : list Student) :
  train m students = Ok m' -> isTrained m' = true.
Proof.
  unfold train.
  destruct (fitLinearRegression _ _ _) as [r|e]; cbn [bind]; [|discriminate].
  intros H. injection H as <-. reflexivity.
Qed.

(** C3 (as amended).  Nothing in [train], [fitLinearRegression] or
    [matrixInverse] tests a pivot: on every non-empty record list [train]
    returns and marks the model trained, whatever the rank of the design. *)
Theorem train_has_no_singularity_check (m : t) (students : list Student) :
  students <> [] ->
  exists m', train m students = Ok m' /\ isTrained m' = true.
Proof.
  intros Hs. unfold train.
  destruct (fit_ok
              (map (fun s => [comprehension s; attention s; focus s; retention s;
                              engagement_time s / 100]) students)
              (map assessment_score students) featureNames) as [r Hr].
  - destruct students; [contradiction|discriminate].
  - rewrite Hr. cbn [bind]. eexists; split; reflexivity.
Qed.

Lemma train_has_no_singularity_check_witness :
  exists m', train new [solo] = Ok m' /\ isTrained m' = true.
Proof.
  apply (train_has_no_singularity_check new [solo]). discriminate.
Defined.

(** C3, the claim as written fails.  The Gram matrix of the one-record
    design has rank one: after the first elimination round the pivot of
    column 1 is exactly zero.  [matrixInverse] divides by it all the same,
    and [train] returns a model whose intercept and coefficients are NaN. *)
Lemma train_singular_returns :
  (exists XT XTX,
      transpose [[1; 80; 70; 60; 50; 1]] = Ok XT /\
      matrixMultiply XT [[1; 80; 70; 60; 50; 1]] = Ok XTX /\
      let aug := gauss_step 6 (augment XTX) 0 in
      entry (swap_rows aug 1 (find_pivot_row 6 aug 1)) 1 1 = 0) /\
  train new [solo]
  = Ok {| coefficients :=
            [("comprehension", nan); ("attention", nan); ("focus", nan);
             ("retention", nan); ("engagement_time", nan)];
          intercept := nan;
          isTrained := true |} /\
  train new [solo] <> Throw SingularMatrixError.
Proof.
  split; [|split].
  - do 2 eexists. split; [reflexivity|]. split; [reflexivity|]. vm_compute. reflexivity.
  - vm_compute. reflexivity.
  - vm_compute. discriminate.
Qed.

(** A singular design need not give NaN.  Two records make a Gram matrix
    of rank at most two; here rounding leaves pivots that are not zero, and
    [train] stores finite numbers that fit nothing. *)
Lemma train_singular_may_be_finite :
  train new [solo; mkStudent "S004" 81 72 63 54 80 120]
  = Ok {| coefficients :=
            [("comprehension", 1.5); ("attention", 12); ("focus", -5.5);
             ("retention", 12); ("engagement_time", -176)];
          intercept := 0;
          isTrained := true |}.
Proof.
  vm_compute. reflexivity.
Qed.

End Training.

(** ** Regression: reading the model *)

Section Reading.
Import LinearRegressionModel.

Lemma predict_untrained (m : t) (s : PartialStudent) :
  isTrained m = false -> predict m s = Throw NotTrainedError.
Proof.
  intros H. unfold predict. now rewrite H.
Qed.

Lemma reachable_untrained (m : t) :
  reachable m -> isTrained m = false -> m = new.
Proof.
  intros Hr. induction Hr as [|m m' students Hr IH Ht]; intros Hf.
  - reflexivity.
  - apply train_sets_flag in Ht. congruence.
Qed.

(** C6 (as amended).  A model whose flag is false is the fresh one: it has
    no coefficient and intercept 0; [predict] fails on it with
    [NotTrainedError]; [getModelSummary] has no guard and returns the empty
    state with [trained = false]. *)
Theorem untrained_model_reads (m : t) :
  reachable m ->
  isTrained m = false ->
  coefficients m = [] /\
  intercept m = 0 /\
  (forall s, predict m s = Throw NotTrainedError) /\
  getModelSummary m
  = Ok {| summary_type := "Linear Regression";
          summary_coefficients := [];
          summary_intercept := 0;
          summary_trained := false |}.
Proof.
  intros Hr Hf.
  pose proof (reachable_untrained m Hr Hf) as ->.
  repeat split.
Qed.

Lemma untrained_model_reads_witness :
  coefficients new = [] /\
  intercept new = 0 /\
  (forall s, predict new s = Throw NotTrainedError) /\
  getModelSummary new
  = Ok {| summary_type := "Linear Regression";
          summary_coefficients := [];
          summary_intercept := 0;
          summary_trained := false |}.
Proof.
  apply (untrained_model_reads new reachable_new). reflexivity.
Defined.

(** C6, the claim as written fails: not every read of an untrained model
    fails, [getModelSummary] returns. *)
Lemma getModelSummary_untrained_returns :
  ~ (forall m : t, isTrained m = false -> exists e, getModelSummary m = Throw e).
Proof.
  intros H. destruct (H new eq_refl) as [e He]. discriminate He.
Qed.

Lemma accumulate_importance (m : t) (s : PartialStudent) :
  snd (accumulate m (features_of s))
  = map (fun nm => (nm, Num.Math_abs (Obj.get (coefficients m) nm))) featureNames.
Proof.
  reflexivity.
Qed.

(** C9.  On a trained model the importance map of a prediction does not
    depend on the record: it is computed from the coefficients alone. *)
Theorem importance_independent_of_record (m : t) (r1 r2 : PartialStudent) :
  isTrained m = true ->
  exists p1 p2,
    predict m r1 = Ok p1 /\ predict m r2 = Ok p2 /\
    feature_importance p1 = feature_importance p2.
Proof.
  intros Ht. unfold predict. rewrite Ht. cbn [negb].
  pose proof (accumulate_importance m r1) as H1.
  pose proof (accumulate_importance m r2) as H2.
  destruct (accumulate m (features_of r1)) as [x1 i1].
  destruct (accumulate m (features_of r2)) as [x2 i2].
  cbn [snd] in H1, H2. subst i1 i2.
  do 2 eexists. repeat split.
Qed.

Lemma importance_independent_of_record_witness :
  exists p1 p2,
    predict trained_cohort (partial_of solo) = Ok p1 /\
    predict trained_cohort empty_record = Ok p2 /\
    feature_importance p1 = feature_importance p2.
Proof.
  apply (importance_independent_of_record trained_cohort (partial_of solo) empty_record).
  vm_compute. reflexivity.
Defined.

(** C7, the claim fails on the code.  The two clamps let NaN through.
    (1) The model fitted on the single record [solo] is trained and its
    coefficients are NaN: the score and the confidence of every prediction
    are NaN.  (2) The model fitted on [cohort_signed] has finite
    coefficients of both signs, and on a record of very large magnitude the
    two contributions overflow to opposite infinities: again NaN.  NaN is in
    neither [0, 100] nor [0.6, 0.95]. *)
Theorem predict_out_of_bounds :
  (exists m p,
      train new [solo] = Ok m /\
      isTrained m = true /\
      predict m (partial_of solo) = Ok p /\
      predicted_score p = nan /\
      confidence p = nan) /\
  (exists m p,
      train new cohort_signed = Ok m /\
      isTrained m = true /\
      Forall (fun kv => is_finite (snd kv) = true) (coefficients m) /\
      is_finite (intercept m) = true /\
      predict m huge_record = Ok p /\
      predicted_score p = nan /\
      confidence p = nan) /\
  (0 <=? nan) = false /\ (nan <=? 100) = false /\
  (0.6 <=? nan) = false /\ (nan <=? 0.95) = false.
Proof.
  split; [|split].
  - do 2 eexists. split; [vm_compute; reflexivity|].
    split; [reflexivity|]. split; [vm_compute; reflexivity|]. split; reflexivity.
  - do 2 eexists. split; [vm_compute; reflexivity|].
    split; [reflexivity|]. split; [repeat constructor|].
    split; [reflexivity|]. split; [vm_compute; reflexivity|]. split; reflexivity.
  - repeat split.
Qed.

End Reading.

(** ** Absent fields *)

Lemma or_default_absent_is_zero :
  Num.or_default None 0 = Num.or_default (Some 0) 0.
Proof.
  reflexivity.
Qed.

(** C10.  A numeric field that is absent from the record is read as 0 by
    [predict] and by [predictCluster]: the result is that of the record
    with the field set to 0. *)
Theorem absent_field_reads_as_zero (f : Field) (s : PartialStudent) :
  get_field f s = None ->
  (forall m, LinearRegressionModel.predict m s
             = LinearRegressionModel.predict m (set_field f (Some 0) s)) /\
  (forall c, StudentClusterer.predictCluster c s
             = StudentClusterer.predictCluster c (set_field f (Some 0) s)).
Proof.
  intros Hf.
  assert (Hreg : LinearRegressionModel.features_of s
                 = LinearRegressionModel.features_of (set_field f (Some 0) s)).
  { unfold LinearRegressionModel.features_of.
    destruct f; cbn in Hf |- *; rewrite Hf; reflexivity. }
  assert (Hcl : StudentClusterer.cluster_features s
                = StudentClusterer.cluster_features (set_field f (Some 0) s)).
  { unfold StudentClusterer.cluster_features.
    destruct f; cbn in Hf |- *; try rewrite Hf; reflexivity. }
  split.
  - intros m. unfold LinearRegressionModel.predict. now rewrite Hreg.
  - intros c. unfold StudentClusterer.predictCluster. now rewrite Hcl.
Qed.

Lemma absent_field_reads_as_zero_witness :
  (forall m, LinearRegressionModel.predict m empty_record
             = LinearRegressionModel.predict m (set_field Comprehension (Some 0) empty_record)) /\
  (forall c, StudentClusterer.predictCluster c empty_record
             = StudentClusterer.predictCluster c (set_field Comprehension (Some 0) empty_record)).
Proof.
  apply (absent_field_reads_as_zero Comprehension empty_record). reflexivity.
Defined.

(** ** The order of binary64 numbers

    The facts about comparison and subtraction that the ranking of the
    centroids rests on, from the specification of the primitive operations
    ([SpecFloat]): [<=?] is a total preorder on numbers, and the sign of a
    rounded difference is the sign of the exact one. *)

Module FloatOrder.
Local Open Scope Z_scope.

(** A positive number of [d] binary digits lies in [[2^(d-1), 2^d)]. *)
Lemma digits2_pos_bounds (m : positive) :
  2 ^ (Zpos (digits2_pos m) - 1) <= Zpos m < 2 ^ Zpos (digits2_pos m).
Proof.
  induction m as [m IH|m IH|]; cbn [digits2_pos].
  - rewrite Pos2Z.inj_succ.
    replace (Z.succ (Zpos (digits2_pos m)) - 1) with (Z.succ (Zpos (digits2_pos m) - 1)) by lia.
    rewrite !Z.pow_succ_r by lia. lia.
  - rewrite Pos2Z.inj_succ.
    replace (Z.succ (Zpos (digits2_pos m)) - 1) with (Z.succ (Zpos (digits2_pos m) - 1)) by lia.
    rewrite !Z.pow_succ_r by lia. lia.
  - cbn. lia.
Qed.

Lemma shr_1_m (r : shr_record) :
  0 <= shr_m r -> shr_m (shr_1 r) = shr_m r / 2.
Proof.
  destruct r as [m r s]. cbn [shr_m]. intros Hm.
  destruct m as [|p|p]; [reflexivity| |lia].
  destruct p as [p|p|]; cbn [shr_1 shr_m].
  - rewrite Pos2Z.inj_xI. apply Z.div_unique with 1; lia.
  - rewrite Pos2Z.inj_xO. apply Z.div_unique with 0; lia.
  - reflexivity.
Qed.

(** Shifting a non-negative mantissa right by [p] bits divides it by [2^p]. *)
Lemma shr_iter_m (p : positive) :
  forall r, 0 <= shr_m r -> shr_m (iter_pos shr_1 p r) = shr_m r / 2 ^ Zpos p.
Proof.
  induction p as [p IH|p IH|]; intros r Hr; cbn [iter_pos].
  - assert (H1 : 0 <= shr_m (shr_1 r)) by (rewrite shr_1_m by lia; apply Z.div_pos; lia).
    assert (H2 : 0 <= shr_m (iter_pos shr_1 p (shr_1 r))).
    { rewrite IH by lia. apply Z.div_pos; lia. }
    rewrite IH, IH, shr_1_m by lia.
    rewrite !Z.div_div by lia. f_equal.
    replace (Zpos p~1) with (1 + Zpos p + Zpos p) by lia.
    rewrite !Z.pow_add_r by lia. change (2 ^ 1) with 2. ring.
  - assert (H2 : 0 <= shr_m (iter_pos shr_1 p r)).
    { rewrite IH by lia. apply Z.div_pos; lia. }
    rewrite IH, IH by lia.
    rewrite !Z.div_div by lia. f_equal.
    replace (Zpos p~0) with (Zpos p + Zpos p) by lia.
    rewrite !Z.pow_add_r by lia. ring.
  - rewrite shr_1_m by lia. reflexivity.
Qed.


(** The comparison of the specification: reflexive and total on numbers,
    antisymmetric, and [SFleb] transitive. *)
Lemma SFcompare_refl (x : spec_float) :
  SF_is_nan x = false -> SFcompare x x = Some Eq.
Proof.
  destruct x as [s|s| |s m e]; cbn; try discriminate; intros _.
  - reflexivity.
  - now destruct s.
  - rewrite Z.compare_refl.
    change (Pos.compare_cont Eq m m) with (Pos.compare m m).
    rewrite Pos.compare_refl. now destruct s.
Qed.

Lemma is_nan_spec (x : float) : is_nan x = SF_is_nan (Prim2SF x).
Proof.
  unfold is_nan. rewrite eqb_spec. unfold SFeqb.
  destruct (SF_is_nan (Prim2SF x)) eqn:H.
  - destruct (Prim2SF x); try discriminate. reflexivity.
  - now rewrite SFcompare_refl.
Qed.

(** Case analysis on every comparison of exponents and mantissas in sight. *)
Ltac cmp_cases :=
  repeat match goal with
  | |- context [Pos.compare_cont Eq ?a ?b] =>
      change (Pos.compare_cont Eq a b) with (Pos.compare a b)
  | H : context [Pos.compare_cont Eq ?a ?b] |- _ =>
      change (Pos.compare_cont Eq a b) with (Pos.compare a b) in H
  end;
  repeat match goal with
  | |- context [Z.compare ?a ?b] => destruct (Z.compare_spec a b)
  | H : context [Z.compare ?a ?b] |- _ => destruct (Z.compare_spec a b)
  | |- context [Pos.compare ?a ?b] => destruct (Pos.compare_spec a b)
  | H : context [Pos.compare ?a ?b] |- _ => destruct (Pos.compare_spec a b)
  end.

Lemma SFcompare_antisym (x y : spec_float) (c : comparison) :
  SFcompare x y = Some c -> SFcompare y x = Some (CompOpp c).
Proof.
  destruct x as [sx|sx| |sx mx ex], y as [sy|sy| |sy my ey]; cbn;
    try discriminate; intros H; injection H as <-;
    try (destruct sx; reflexivity); try (destruct sy; reflexivity);
    try (destruct sx, sy; reflexivity).
  destruct sx, sy; cbn; try reflexivity; cmp_cases; cbn; subst; try reflexivity; try lia.
Qed.

Lemma SFcompare_total (x y : spec_float) :
  SF_is_nan x = false -> SF_is_nan y = false -> exists c, SFcompare x y = Some c.
Proof.
  destruct x, y; cbn; try discriminate; intros _ _; eexists; reflexivity.
Qed.

Lemma SFleb_trans (x y z : spec_float) :
  SFleb x y = true -> SFleb y z = true -> SFleb x z = true.
Proof.
  unfold SFleb.
  destruct x as [sx|sx| |sx mx ex], y as [sy|sy| |sy my ey], z as [sz|sz| |sz mz ez];
    cbn; try discriminate; try reflexivity;
    try (destruct sx; cbn; try discriminate; try reflexivity);
    try (destruct sy; cbn; try discriminate; try reflexivity);
    try (destruct sz; cbn; try discriminate; try reflexivity);
    cmp_cases; subst; try discriminate; try reflexivity; try lia.
Qed.

Section Binary64.
Let prec := FloatOps.prec.
Let emax := FloatOps.emax.
Let emin := SpecFloat.emin prec emax.
Let fexp := SpecFloat.fexp prec emax.

Lemma fexp_unfold (e : Z) : fexp e = Z.max (e - 53) (-1074).
Proof.
  reflexivity.
Qed.

(** A positive mantissa at an exponent not below [emin = -1074] is not
    shifted down to zero. *)
Lemma shr_fexp_pos (m e : Z) (l : location) :
  0 < m -> -1074 <= e ->
  0 < shr_m (fst (shr_fexp prec emax m e l)) /\ -1074 <= snd (shr_fexp prec emax m e l).
Proof.
  intros Hm He. unfold shr_fexp, shr.
  fold fexp. rewrite fexp_unfold.
  assert (Hrec : shr_m (shr_record_of_loc m l) = m).
  { destruct l as [|[| |]]; reflexivity. }
  destruct m as [|p|p]; try lia. cbn [Zdigits2].
  pose proof (digits2_pos_bounds p) as Hd.
  destruct (Z.max (Zpos (digits2_pos p) + e - 53) (-1074) - e) as [|n|n] eqn:Hn;
    cbn [fst snd]; try (rewrite Hrec; lia).
  rewrite shr_iter_m by (rewrite Hrec; lia). rewrite Hrec.
  split; [|lia].
  assert (Hn' : Zpos n = Zpos (digits2_pos p) - 53) by lia.
  apply Z.div_str_pos. split; [apply Z.pow_pos_nonneg; lia|].
  apply Z.le_trans with (2 ^ (Zpos (digits2_pos p) - 1)); [|lia].
  apply Z.pow_le_mono_r; lia.
Qed.

Lemma round_nearest_even_ge (m : Z) (l : location) : m <= round_nearest_even m l.
Proof.
  destruct l as [|[| |]]; cbn; try lia. destruct (Z.even m); lia.
Qed.

(** Rounding a positive mantissa gives a finite non-zero number or an
    infinity, of the sign asked for. *)
Lemma binary_round_aux_sign (s : bool) (m e : Z) (l : location) :
  0 < m -> -1074 <= e -> signed_nonzero s (binary_round_aux prec emax s m e l).
Proof.
  intros Hm He. unfold binary_round_aux.
  pose proof (shr_fexp_pos m e l Hm He) as [H1 H2].
  destruct (shr_fexp prec emax m e l) as [r1 e1]. cbn [fst snd] in H1, H2.
  pose proof (round_nearest_even_ge (shr_m r1) (loc_of_shr_record r1)) as Hr.
  pose proof (shr_fexp_pos (round_nearest_even (shr_m r1) (loc_of_shr_record r1)) e1 loc_Exact
                ltac:(lia) H2) as [H3 H4].
  destruct (shr_fexp prec emax _ e1 loc_Exact) as [r2 e2]. cbn [fst snd] in H3, H4.
  destruct (shr_m r2) as [|q|q]; try lia.
  destruct (Z.leb e2 (emax - prec)); reflexivity.
Qed.

Lemma binary_round_sign (s : bool) (m : positive) (e : Z) :
  -1074 <= e -> signed_nonzero s (binary_round prec emax s m e).
Proof.
  intros He. unfold binary_round, shl_align. fold fexp. rewrite fexp_unfold.
  destruct (Z.max (Zpos (digits2_pos m) + e - 53) (-1074) - e) as [|n|n] eqn:Hn;
    apply binary_round_aux_sign; lia.
Qed.

(** The rounded value of [D * 2^e] is positive exactly when [D] is. *)
Lemma binary_normalize_sign (D e : Z) :
  -1074 <= e ->
  SFltb (S754_zero false) (binary_normalize prec emax D e false) = (0 <? D).
Proof.
  intros He. destruct D as [|p|p]; cbn [binary_normalize].
  - reflexivity.
  - pose proof (binary_round_sign false p e He) as H.
    destruct (binary_round prec emax false p e); cbn in H; try contradiction; subst; reflexivity.
  - pose proof (binary_round_sign true p e He) as H.
    destruct (binary_round prec emax true p e); cbn in H; try contradiction; subst; reflexivity.
Qed.


Lemma iter_xO_pow (m d : positive) :
  Zpos (Pos.iter xO m d) = Zpos m * 2 ^ Zpos d.
Proof.
  induction d as [|d IH] using Pos.peano_ind.
  - cbn. lia.
  - rewrite Pos.iter_succ, Pos2Z.inj_xO, IH, Pos2Z.inj_succ, Z.pow_succ_r by lia. ring.
Qed.

Lemma shl_align_fst (m : positive) (e e' : Z) :
  e' <= e -> Zpos (fst (shl_align m e e')) = Zpos m * 2 ^ (e - e').
Proof.
  intros Hle. unfold shl_align.
  destruct (e' - e) as [|d|d] eqn:Hd; cbn [fst].
  - replace (e - e') with 0 by lia. cbn. lia.
  - lia.
  - rewrite iter_xO_pow. f_equal. f_equal. lia.
Qed.

(** A valid finite number: its exponent is at least [emin], its mantissa
    has at most 53 digits, and exactly 53 above [emin]. *)
Lemma bounded_inv (m : positive) (e : Z) :
  bounded prec emax m e = true ->
  -1074 <= e /\ Zpos m < 2 ^ 53 /\ (-1074 < e -> 2 ^ 52 <= Zpos m).
Proof.
  unfold bounded, canonical_mantissa. fold fexp. rewrite fexp_unfold.
  intros H. apply andb_prop in H as [H _]. apply Z.eqb_eq in H.
  pose proof (digits2_pos_bounds m) as Hd.
  assert (Hle : Zpos (digits2_pos m) <= 53) by lia.
  split; [lia|]. split.
  - apply Z.lt_le_trans with (2 ^ Zpos (digits2_pos m)); [lia|].
    apply Z.pow_le_mono_r; lia.
  - intros He. replace (Zpos (digits2_pos m)) with 53 in Hd by lia. exact (proj1 Hd).
Qed.

(** On valid numbers the rounded difference [x - y] is positive exactly
    when [y < x]. *)
Lemma SFsub_sign (x y : spec_float) :
  valid_binary x = true -> valid_binary y = true ->
  SF_is_nan x = false -> SF_is_nan y = false ->
  SFltb (S754_zero false) (SFsub prec emax x y) = SFltb y x.
Proof.
  destruct x as [sx|sx| |sx mx ex], y as [sy|sy| |sy my ey];
    cbn [valid_binary SF_is_nan]; intros Hx Hy Nx Ny; try discriminate;
    try (destruct sx, sy; reflexivity); try (destruct sx; reflexivity);
    try (destruct sy; reflexivity).
  apply bounded_inv in Hx as (Hex & Hmx & Hnx).
  apply bounded_inv in Hy as (Hey & Hmy & Hny).
  cbn [SFsub]. rewrite binary_normalize_sign by lia.
  rewrite !shl_align_fst by lia.
  unfold SFltb. cbn [SFcompare].
  change (Pos.compare_cont Eq my mx) with (Pos.compare my mx).
  change (2 ^ 53) with 9007199254740992 in *.
  change (2 ^ 52) with 4503599627370496 in *.
  assert (Hdec : forall D (b : bool), (0 < D <-> b = true) -> (0 <? D) = b).
  { intros D b [H1 H2]. destruct (Z.ltb_spec 0 D) as [Hlt|Hge], b; auto.
    - symmetry. auto.
    - specialize (H2 eq_refl). lia. }
  destruct (Z.compare_spec ey ex) as [He|He|He].
  - subst ey. rewrite Z.min_id, Z.sub_diag. change (2 ^ 0) with 1.
    destruct (Pos.compare_spec my mx); destruct sx, sy; apply Hdec; unfold cond_Zopp;
      (split; [intros ?|intros ?]); try reflexivity; try discriminate; lia.
  - rewrite Z.min_r by lia. rewrite Z.sub_diag. change (2 ^ 0) with 1.
    assert (HP : 2 <= 2 ^ (ex - ey)).
    { change 2 with (2 ^ 1) at 1. apply Z.pow_le_mono_r; lia. }
    specialize (Hnx ltac:(lia)).
    destruct sx, sy; apply Hdec; unfold cond_Zopp;
      (split; [intros ?|intros ?]); try reflexivity; try discriminate; nia.
  - rewrite Z.min_l by lia. rewrite Z.sub_diag. change (2 ^ 0) with 1.
    assert (HP : 2 <= 2 ^ (ey - ex)).
    { change 2 with (2 ^ 1) at 1. apply Z.pow_le_mono_r; lia. }
    specialize (Hny ltac:(lia)).
    destruct sx, sy; apply Hdec; unfold cond_Zopp;
      (split; [intros ?|intros ?]); try reflexivity; try discriminate; nia.
Qed.

Lemma shr_fexp_nonneg (m e : Z) (l : location) :
  0 <= m -> 0 <= shr_m (fst (shr_fexp prec emax m e l)).
Proof.
  intros Hm. unfold shr_fexp, shr.
  assert (Hrec : shr_m (shr_record_of_loc m l) = m).
  { destruct l as [|[| |]]; reflexivity. }
  destruct (SpecFloat.fexp prec emax (Zdigits2 m + e) - e) as [|n|n]; cbn [fst];
    try (rewrite Hrec; lia).
  rewrite shr_iter_m by (rewrite Hrec; lia). rewrite Hrec.
  apply Z.div_pos; [lia|]. apply Z.pow_pos_nonneg; lia.
Qed.

(** Rounding a non-negative mantissa does not give NaN. *)
Lemma binary_round_aux_not_nan (s : bool) (m e : Z) (l : location) :
  0 <= m -> SF_is_nan (binary_round_aux prec emax s m e l) = false.
Proof.
  intros Hm. unfold binary_round_aux.
  pose proof (shr_fexp_nonneg m e l Hm) as H1.
  destruct (shr_fexp prec emax m e l) as [r1 e1]. cbn [fst] in H1.
  pose proof (round_nearest_even_ge (shr_m r1) (loc_of_shr_record r1)) as Hr.
  pose proof (shr_fexp_nonneg (round_nearest_even (shr_m r1) (loc_of_shr_record r1)) e1
                loc_Exact ltac:(lia)) as H2.
  destruct (shr_fexp prec emax _ e1 loc_Exact) as [r2 e2]. cbn [fst] in H2.
  destruct (shr_m r2) as [|q|q]; try lia; [reflexivity|].
  destruct (Z.leb e2 (emax - prec)); reflexivity.
Qed.

(** A difference of numbers is a number unless both are infinite. *)
Lemma SFsub_not_nan (x y : spec_float) :
  valid_binary x = true -> valid_binary y = true ->
  SF_is_nan x = false -> SF_is_nan y = false ->
  SF_is_inf x && SF_is_inf y = false ->
  SF_is_nan (SFsub prec emax x y) = false.
Proof.
  destruct x as [sx|sx| |sx mx ex], y as [sy|sy| |sy my ey];
    cbn [valid_binary SF_is_nan SF_is_inf andb]; intros Hx Hy Nx Ny Hinf;
    try discriminate; try reflexivity;
    try (destruct sx, sy; reflexivity).
  apply bounded_inv in Hx as (Hex & _). apply bounded_inv in Hy as (Hey & _).
  cbn [SFsub].
  destruct (cond_Zopp sx (Zpos (fst (shl_align mx ex (Z.min ex ey))))
            - cond_Zopp sy (Zpos (fst (shl_align my ey (Z.min ex ey))))) as [|p|p];
    cbn [binary_normalize]; [reflexivity| |].
  - pose proof (binary_round_sign false p (Z.min ex ey) ltac:(lia)) as H.
    destruct (binary_round prec emax false p _); cbn in H |- *; auto; contradiction.
  - pose proof (binary_round_sign true p (Z.min ex ey) ltac:(lia)) as H.
    destruct (binary_round prec emax true p _); cbn in H |- *; auto; contradiction.
Qed.

(** A number divided by a finite non-zero number is a number. *)
Lemma SFdiv_finite_not_nan (x : spec_float) (s : bool) (m : positive) (e : Z) :
  SF_is_nan x = false ->
  SF_is_nan (SFdiv prec emax x (S754_finite s m e)) = false.
Proof.
  destruct x as [sx|sx| |sx mx ex]; cbn [SF_is_nan]; intros Nx;
    try discriminate; try reflexivity.
  cbn [SFdiv]. unfold SFdiv_core_binary.
  set (m' := match _ with Z0 => Zpos mx | Zpos _ => _ | Zneg _ => 0 end).
  assert (Hm' : 0 <= m').
  { subst m'. destruct (_ - _ - _) as [|p|p]; try lia. apply Z.shiftl_nonneg. lia. }
  pose proof (Z_div_mod m' (Zpos m) ltac:(lia)) as Hdiv.
  destruct (Z.div_eucl m' (Zpos m)) as [q r].
  apply binary_round_aux_not_nan. nia.
Qed.

Lemma SFabs_not_nan (x : spec_float) : SF_is_nan (SFabs x) = SF_is_nan x.
Proof.
  now destruct x.
Qed.

End Binary64.

Local Open Scope float_scope.

(** The comparator of the ranking is positive exactly when its first
    argument has the smaller average. *)
Lemma sub_positive_iff_lt (a b : float) :
  is_nan a = false -> is_nan b = false -> (0 <? b - a) = (a <? b).
Proof.
  intros Ha Hb. rewrite !ltb_spec, sub_spec.
  rewrite is_nan_spec in Ha, Hb.
  change (Prim2SF 0) with (S754_zero false).
  apply SFsub_sign; auto using Prim2SF_valid.
Qed.

(** [<=?] on the numbers of the program. *)
Lemma ltb_leb (a b : float) : (a <? b) = true -> (a <=? b) = true.
Proof.
  rewrite ltb_spec, leb_spec. unfold SFltb, SFleb.
  destruct (SFcompare (Prim2SF a) (Prim2SF b)) as [[| |]|]; auto.
Qed.

Lemma not_ltb_leb (a b : float) :
  is_nan a = false -> is_nan b = false -> (a <? b) = false -> (b <=? a) = true.
Proof.
  rewrite !is_nan_spec, ltb_spec, leb_spec. unfold SFltb, SFleb. intros Ha Hb.
  destruct (SFcompare_total (Prim2SF a) (Prim2SF b) Ha Hb) as [c Hc].
  rewrite Hc, (SFcompare_antisym _ _ _ Hc). destruct c; auto.
Qed.

Lemma leb_refl (a : float) : is_nan a = false -> (a <=? a) = true.
Proof.
  rewrite is_nan_spec, leb_spec. unfold SFleb. intros Ha.
  now rewrite SFcompare_refl.
Qed.

Lemma leb_trans (a b c : float) :
  (a <=? b) = true -> (b <=? c) = true -> (a <=? c) = true.
Proof.
  rewrite !leb_spec. apply SFleb_trans.
Qed.

Lemma leb_not_nan (a b : float) :
  (a <=? b) = true -> is_nan a = false /\ is_nan b = false.
Proof.
  rewrite !is_nan_spec, leb_spec. unfold SFleb.
  destruct (Prim2SF a), (Prim2SF b); cbn; auto; discriminate.
Qed.

Lemma sub_not_nan (x y : float) :
  is_nan x = false -> is_nan y = false ->
  SF_is_inf (Prim2SF x) && SF_is_inf (Prim2SF y) = false ->
  is_nan (x - y) = false.
Proof.
  rewrite !is_nan_spec, sub_spec. intros Hx Hy Hinf.
  apply SFsub_not_nan; auto using Prim2SF_valid.
Qed.

Lemma div_finite_not_nan (x y : float) :
  is_nan x = false ->
  (exists s m e, Prim2SF y = S754_finite s m e) ->
  is_nan (x / y) = false.
Proof.
  rewrite !is_nan_spec, div_spec. intros Hx (s & m & e & ->).
  now apply SFdiv_finite_not_nan.
Qed.

Lemma abs_not_nan (x : float) : is_nan (abs x) = is_nan x.
Proof.
  rewrite !is_nan_spec, abs_spec. apply SFabs_not_nan.
Qed.

(** Where [prediction] is a number, so is [1 - |prediction - 75| / 100]. *)
Lemma raw_confidence_not_nan (p : float) :
  is_nan p = false -> is_nan (1 - abs (p - 75) / 100) = false.
Proof.
  intros Hp.
  apply sub_not_nan; [reflexivity| |reflexivity].
  apply div_finite_not_nan; [|do 3 eexists; vm_compute; reflexivity].
  rewrite abs_not_nan.
  apply sub_not_nan; [assumption|reflexivity|].
  replace (SF_is_inf (Prim2SF 75)) with false by (vm_compute; reflexivity).
  apply andb_false_r.
Qed.

End FloatOrder.

(** ** Regression: the clamps *)

Section Clamp.
Import FloatOrder.

(** [Math.max(lo, Math.min(hi, v))] lies in [[lo, hi]] for every number [v]. *)
Lemma clamp_in_bounds (lo hi v : float) :
  (lo <=? hi) = true -> is_nan v = false ->
  (lo <=? Num.Math_max lo (Num.Math_min hi v)) = true /\
  (Num.Math_max lo (Num.Math_min hi v) <=? hi) = true.
Proof.
  intros Hlh Hv. destruct (leb_not_nan _ _ Hlh) as [Hlo Hhi].
  assert (Hq : (Num.Math_min hi v <=? hi) = true /\ is_nan (Num.Math_min hi v) = false).
  { unfold Num.Math_min. rewrite Hhi, Hv. cbn [orb].
    destruct (hi <? v) eqn:H1; [split; [now apply leb_refl|assumption]|].
    destruct (v <? hi) eqn:H2; [split; [now apply ltb_leb|assumption]|].
    destruct (Num.is_neg_zero v).
    - split; [now apply not_ltb_leb|assumption].
    - split; [now apply leb_refl|assumption]. }
  destruct Hq as [Hq Hqn]. set (q := Num.Math_min hi v) in *.
  unfold Num.Math_max. rewrite Hlo, Hqn. cbn [orb].
  destruct (lo <? q) eqn:H1; [split; [now apply ltb_leb|assumption]|].
  destruct (q <? lo) eqn:H2; [split; [now apply leb_refl|assumption]|].
  destruct (Num.is_neg_zero lo).
  - split; [now apply not_ltb_leb|assumption].
  - split; [now apply leb_refl|assumption].
Qed.

(** The bounds of [predict] hold whenever the prediction is a number: NaN
    is the one value the two clamps let through. *)
Lemma predict_in_bounds_when_number (m : LinearRegressionModel.t) (s : PartialStudent) :
  LinearRegressionModel.isTrained m = true ->
  is_nan (fst (LinearRegressionModel.accumulate m (LinearRegressionModel.features_of s)))
  = false ->
  exists p,
    LinearRegressionModel.predict m s = Ok p /\
    (0 <=? predicted_score p) = true /\ (predicted_score p <=? 100) = true /\
    (0.6 <=? confidence p) = true /\ (confidence p <=? 0.95) = true.
Proof.
  intros Ht Hnum. unfold LinearRegressionModel.predict. rewrite Ht. cbn [negb].
  destruct (LinearRegressionModel.accumulate m (LinearRegressionModel.features_of s))
    as [prediction importance]. cbn [fst] in Hnum.
  eexists. split; [reflexivity|]. cbn [predicted_score confidence].
  destruct (clamp_in_bounds 0 100 prediction eq_refl Hnum) as [H1 H2].
  destruct (clamp_in_bounds 0.6 0.95 (1 - Num.Math_abs (prediction - 75) / 100) eq_refl
              (raw_confidence_not_nan prediction Hnum)) as [H3 H4].
  unfold LinearRegressionModel.confidence_of. auto.
Qed.

End Clamp.

(** ** Lists with indices *)

Section IndexedLists.
Context {A B : Type}.

Lemma update_length (l : list A) (i : nat) (v : A) :
  length (Arr.update l i v) = length l.
Proof.
  revert i. induction l as [|x l IH]; intros [|i]; cbn; auto.
Qed.

Lemma nth_update_same (l : list A) (i : nat) (v d : A) :
  (i < length l)%nat -> nth i (Arr.update l i v) d = v.
Proof.
  revert i. induction l as [|x l IH]; intros [|i] Hi; cbn in *; try lia; auto.
  apply IH. lia.
Qed.

Lemma nth_update_other (l : list A) (i j : nat) (v d : A) :
  i <> j -> nth j (Arr.update l i v) d = nth j l d.
Proof.
  revert i j. induction l as [|x l IH]; intros [|i] [|j] Hij; cbn; auto.
  contradiction.
Qed.

Lemma mapi_from_length (f : nat -> A -> B) (i : nat) (l : list A) :
  length (Arr.mapi_from f i l) = length l.
Proof.
  revert i. induction l as [|x l IH]; intros i; cbn; auto.
Qed.

Lemma nth_error_mapi_from (f : nat -> A -> B) (i : nat) (l : list A) (c : nat) :
  nth_error (Arr.mapi_from f i l) c = option_map (f (i + c)%nat) (nth_error l c).
Proof.
  revert i c. induction l as [|x l IH]; intros i [|c]; cbn; auto.
  - now rewrite Nat.add_0_r.
  - rewrite IH. now rewrite Nat.add_succ_r.
Qed.

Lemma nth_mapi (f : nat -> A -> B) (l : list A) (c : nat) (da : A) (db : B) :
  (c < length l)%nat -> nth c (Arr.mapi f l) db = f c (nth c l da).
Proof.
  intros Hc. unfold Arr.mapi.
  pose proof (nth_error_mapi_from f 0 l c) as H.
  rewrite (nth_error_nth' l da Hc) in H. cbn in H.
  now apply nth_error_nth.
Qed.

End IndexedLists.

(** ** Clustering: k-means *)

Section KMeans.
Import StudentClusterer.

Lemma nearest_fold_bound (point : list float) (cs : matrix) :
  forall (i : nat) (st : float * nat),
    cs <> [] -> (snd st <= i)%nat ->
    (snd (Arr.foldi_from (nearer point) i cs st) < i + length cs)%nat.
Proof.
  induction cs as [|c cs IH]; intros i st Hne Hst; [contradiction|].
  cbn [Arr.foldi_from length].
  set (st' := nearer point st c i).
  assert (Hst' : (snd st' <= i)%nat).
  { subst st'. unfold nearer. cbv zeta. destruct (_ <? _); cbn; lia. }
  destruct cs as [|c' cs'].
  - cbn. lia.
  - specialize (IH (S i) st'). cbn [length] in IH |- *.
    assert (snd st' <= S i)%nat by lia.
    specialize (IH ltac:(discriminate) H). lia.
Qed.

Lemma nearest_lt (point : list float) (cs : matrix) :
  cs <> [] -> (nearest point cs < length cs)%nat.
Proof.
  intros Hne. unfold nearest, Arr.foldi.
  apply (nearest_fold_bound point cs 0 (infinity, 0%nat) Hne). cbn. lia.
Qed.

Lemma nth_assign_lt (data cs : matrix) (i : nat) :
  cs <> [] -> (nth i (assign data cs) 0 < length cs)%nat.
Proof.
  intros Hne. unfold assign.
  destruct (Nat.lt_ge_cases i (length data)) as [Hi|Hi].
  - rewrite (nth_indep _ 0%nat (nearest [] cs)) by now rewrite length_map.
    rewrite (map_nth (fun point => nearest point cs)). now apply nearest_lt.
  - rewrite nth_overflow by now rewrite length_map.
    destruct cs; [contradiction|cbn; lia].
Qed.

(** The single pass over the data leaves, for every cluster, the sums of
    the points that carry its label and their number. *)
Lemma accumulate_points_spec (k : nat) (labels : list nat) :
  (forall i, nth i labels 0 < k)%nat ->
  forall (data : matrix) (index : nat) (nc : matrix) (counts : list nat),
    length nc = k -> length counts = k ->
    exists nc' counts',
      accumulate_points data index labels (nc, counts) = Ok (nc', counts') /\
      length nc' = k /\ length counts' = k /\
      forall c, (c < k)%nat ->
        nth c nc' [] = fold_left add_point (assigned_from data index labels c) (nth c nc []) /\
        nth c counts' 0%nat
        = (nth c counts 0 + length (assigned_from data index labels c))%nat.
Proof.
  intros Hlab. induction data as [|point data IH]; intros index nc counts Hnc Hcounts.
  - exists nc, counts. cbn. repeat split; auto.
  - cbn [accumulate_points assigned_from].
    set (cluster := nth index labels 0%nat).
    assert (Hcl : (cluster < k)%nat) by apply Hlab.
    unfold add_to_cluster.
    destruct (nth_error nc cluster) as [centroid|] eqn:Hget.
    2:{ apply nth_error_None in Hget. lia. }
    cbn [bind].
    edestruct (IH (S index)
                 (Arr.update nc cluster (add_point centroid point))
                 (Arr.update counts cluster (S (nth cluster counts 0%nat))))
      as (nc' & counts' & Hrun & Hl1 & Hl2 & Hspec).
    { now rewrite update_length. }
    { now rewrite update_length. }
    exists nc', counts'. split; [exact Hrun|]. split; [exact Hl1|]. split; [exact Hl2|].
    intros c Hc. destruct (Hspec c Hc) as [Hsum Hcount].
    rewrite Hsum, Hcount.
    destruct (Nat.eqb_spec cluster c) as [->|Hne].
    + rewrite !nth_update_same by lia. cbn [fold_left length].
      rewrite (nth_error_nth _ _ [] Hget). split; [reflexivity|lia].
    + rewrite !nth_update_other by assumption. split; [reflexivity|lia].
Qed.

Lemma nth_repeat_lt {A : Type} (x d : A) (n c : nat) :
  (c < n)%nat -> nth c (repeat x n) d = x.
Proof.
  revert c. induction n as [|n IH]; intros [|c] Hc; cbn; try lia; auto.
  apply IH. lia.
Qed.

Lemma update_centroids_spec (data : matrix) (labels : list nat) (k d : nat) :
  (forall i, nth i labels 0 < k)%nat ->
  exists newCentroids,
    update_centroids data labels k d = Ok newCentroids /\
    length newCentroids = k /\
    forall c, (c < k)%nat ->
      nth c newCentroids [] =
        match assigned data labels c with
        | [] => Arr.zeros d
        | _ :: _ => mean_point (assigned data labels c) d
        end.
Proof.
  intros Hlab. unfold update_centroids.
  destruct (accumulate_points_spec k labels Hlab data 0
              (repeat (Arr.zeros d) k) (repeat 0%nat k))
    as (nc' & counts' & Hrun & Hl1 & Hl2 & Hspec);
    try apply repeat_length.
  exists (Arr.mapi (finish_centroid counts') nc').
  split; [now rewrite Hrun|]. split.
  - unfold Arr.mapi. now rewrite mapi_from_length.
  - intros c Hc. rewrite (nth_mapi _ _ _ []) by lia.
    destruct (Hspec c Hc) as [Hsum Hcount].
    rewrite !nth_repeat_lt in * by assumption.
    unfold finish_centroid. rewrite Hcount, Hsum. cbn [Nat.add].
    fold (assigned data labels c).
    destruct (assigned data labels c) as [|p ps] eqn:Hm.
    + reflexivity.
    + cbn [length Nat.ltb Nat.leb]. unfold mean_point. reflexivity.
Qed.

(** C2 (as amended).  An iteration that does not stop at the convergence
    test replaces every centroid: one that has points by their mean, one
    that has none by the zero vector. *)
Theorem kmeans_iteration_recomputes (data : matrix) (k d : nat)
  (labels : list nat) (cs : matrix) :
  length cs = k -> (0 < k)%nat ->
  converged (assign data cs) labels = false ->
  exists newCentroids,
    kmeans_iteration data k d (labels, cs) = Ok (Some (assign data cs, newCentroids)) /\
    length newCentroids = k /\
    forall c, (c < k)%nat ->
      nth c newCentroids [] =
        match assigned data (assign data cs) c with
        | [] => Arr.zeros d
        | _ :: _ => mean_point (assigned data (assign data cs) c) d
        end.
Proof.
  intros Hlen Hk Hconv. unfold kmeans_iteration. rewrite Hconv.
  destruct (update_centroids_spec data (assign data cs) k d) as (nc & Hrun & Hl & Hspec).
  { intros i. rewrite <- Hlen. apply nth_assign_lt. destruct cs; [cbn in *; lia|discriminate]. }
  exists nc. rewrite Hrun. cbn [bind]. auto.
Qed.

Lemma kmeans_iteration_recomputes_witness :
  exists newCentroids,
    kmeans_iteration [[1; 1]; [2; 2]; [5; 5]] 3 2
                     ([0; 0; 0]%nat, [[2; 2]; [2; 2]; [1; 1]])
    = Ok (Some (assign [[1; 1]; [2; 2]; [5; 5]] [[2; 2]; [2; 2]; [1; 1]], newCentroids)) /\
    length newCentroids = 3%nat /\
    forall c, (c < 3)%nat ->
      nth c newCentroids [] =
        match assigned [[1; 1]; [2; 2]; [5; 5]]
                       (assign [[1; 1]; [2; 2]; [5; 5]] [[2; 2]; [2; 2]; [1; 1]]) c with
        | [] => Arr.zeros 2
        | _ :: _ =>
            mean_point (assigned [[1; 1]; [2; 2]; [5; 5]]
                          (assign [[1; 1]; [2; 2]; [5; 5]] [[2; 2]; [2; 2]; [1; 1]]) c) 2
        end.
Proof.
  apply (kmeans_iteration_recomputes [[1; 1]; [2; 2]; [5; 5]] 3 2
           [0; 0; 0]%nat [[2; 2]; [2; 2]; [1; 1]]).
  - reflexivity.
  - lia.
  - vm_compute. reflexivity.
Defined.

(** C2, the claim as written fails.  Centroid 1 stands at (2, 2) and
    receives no point; after the iteration it stands at (0, 0).  And an
    iteration that stops at the convergence test recomputes nothing: with one
    centroid, drawn as the first point, the first assignment is the initial
    labelling, and [kmeans] returns the drawn point, not the mean. *)
Lemma empty_cluster_centroid_is_reset :
  (assign [[1; 1]; [2; 2]; [5; 5]] [[2; 2]; [2; 2]; [1; 1]] = [2; 0; 0]%nat /\
   assigned [[1; 1]; [2; 2]; [5; 5]] [2; 0; 0]%nat 1 = [] /\
   kmeans_iteration [[1; 1]; [2; 2]; [5; 5]] 3 2
                    ([0; 0; 0]%nat, [[2; 2]; [2; 2]; [1; 1]])
   = Ok (Some ([2; 0; 0]%nat, [[3.5; 3.5]; [0; 0]; [1; 1]])) /\
   nth 1 [[3.5; 3.5]; [0; 0]; [1; 1]] [] <> nth 1 [[2; 2]; [2; 2]; [1; 1]] []) /\
  (kmeans_iteration [[1]; [3]] 1 1 ([0; 0]%nat, [[1]]) = Ok None /\
   kmeans draw_first [[1]; [3]] 1 100 = Ok ([0; 0]%nat, [[1]]) /\
   mean_point (assigned [[1]; [3]] [0; 0]%nat 0) 1 = [2]).
Proof.
  split.
  - repeat split; try (vm_compute; reflexivity).
    intros H. apply (f_equal (fun row => Arr.get row 0 =? 2)) in H.
    vm_compute in H. discriminate.
  - repeat split; vm_compute; reflexivity.
Qed.

Lemma normalizeFeatures_ok (features : matrix) :
  features <> [] ->
  exists nf, normalizeFeatures features = Ok nf /\ length nf = length features.
Proof.
  intros Hne. destruct features as [|row0 rows]; [contradiction|].
  eexists. split; [reflexivity|]. now rewrite length_map.
Qed.

Lemma pick_centroids_ok (rnd : nat -> nat) (data : matrix) :
  (forall i, rnd i < length data)%nat ->
  forall k i, exists cs, pick_centroids rnd data i k = Ok cs /\ length cs = k.
Proof.
  intros Hrnd. induction k as [|k IH]; intros i.
  - now exists [].
  - cbn [pick_centroids].
    destruct (nth_error data (rnd i)) as [point|] eqn:Hget.
    2:{ apply nth_error_None in Hget. specialize (Hrnd i). lia. }
    destruct (IH (S i)) as (cs & Hcs & Hlen).
    exists (point :: cs). rewrite Hcs. cbn. now rewrite Hlen.
Qed.

Lemma kmeans_iteration_ok (data : matrix) (k d : nat) (labels : list nat) (cs : matrix) :
  length cs = k -> (0 < k)%nat ->
  kmeans_iteration data k d (labels, cs) = Ok None \/
  exists labels' cs',
    kmeans_iteration data k d (labels, cs) = Ok (Some (labels', cs')) /\ length cs' = k.
Proof.
  intros Hlen Hk. unfold kmeans_iteration.
  destruct (converged (assign data cs) labels); [now left|right].
  destruct (update_centroids_spec data (assign data cs) k d) as (nc & Hrun & Hl & _).
  { intros i. rewrite <- Hlen. apply nth_assign_lt. destruct cs; [cbn in *; lia|discriminate]. }
  exists (assign data cs), nc. now rewrite Hrun.
Qed.

Lemma kmeans_loop_ok (data : matrix) (k d : nat) :
  (0 < k)%nat ->
  forall iterations labels cs,
    length cs = k ->
    exists labels' cs',
      kmeans_loop iterations data k d (labels, cs) = Ok (labels', cs') /\ length cs' = k.
Proof.
  intros Hk. induction iterations as [|n IH]; intros labels cs Hlen.
  - now exists labels, cs.
  - cbn [kmeans_loop].
    destruct (kmeans_iteration_ok data k d labels cs Hlen Hk)
      as [Hstop|(labels' & cs' & Hstep & Hlen')].
    + exists labels, cs. now rewrite Hstop.
    + destruct (IH labels' cs' Hlen') as (l2 & c2 & Hrun & Hl2).
      exists l2, c2. now rewrite Hstep.
Qed.

Lemma assign_no_centroid (data : matrix) :
  assign data [] = repeat 0%nat (length data).
Proof.
  induction data as [|p data IH]; [reflexivity|].
  cbn. f_equal. exact IH.
Qed.

Lemma converged_zeros_from (n m i : nat) (ok : bool) :
  (i + m <= n)%nat ->
  Arr.foldi_from
    (fun ok label index =>
       ok && match nth_error (repeat 0%nat n) index with
             | Some l => Nat.eqb label l
             | None => false
             end)
    i (repeat 0%nat m) ok = ok.
Proof.
  revert i ok. induction m as [|m IH]; intros i ok Hle; [reflexivity|].
  cbn [repeat Arr.foldi_from]. rewrite IH by lia.
  rewrite (nth_error_nth' _ 0%nat) by (rewrite repeat_length; lia).
  rewrite nth_repeat_lt by lia. now rewrite andb_true_r.
Qed.

Lemma kmeans_loop_no_centroid (data : matrix) (d iterations : nat) :
  kmeans_loop iterations data 0 d (repeat 0%nat (length data), [])
  = Ok (repeat 0%nat (length data), []).
Proof.
  destruct iterations as [|n]; [reflexivity|].
  cbn [kmeans_loop]. unfold kmeans_iteration.
  rewrite assign_no_centroid. unfold converged, Arr.foldi.
  rewrite converged_zeros_from by lia. reflexivity.
Qed.

Lemma kmeans_ok (rnd : nat -> nat) (data : matrix) (k maxIterations : nat) :
  data <> [] ->
  (forall i, rnd i < length data)%nat ->
  exists labels cs,
    kmeans rnd data k maxIterations = Ok (labels, cs) /\ length cs = k.
Proof.
  intros Hne Hrnd. destruct data as [|point0 rest] eqn:Hdata; [contradiction|].
  assert (Hk : kmeans rnd data k maxIterations
               = (cs <- pick_centroids rnd data 0 k ;;
                  kmeans_loop maxIterations data k (length point0)
                              (repeat 0%nat (length data), cs))).
  { now rewrite Hdata. }
  rewrite <- Hdata in Hrnd |- *. rewrite Hk. clear Hk.
  destruct (pick_centroids_ok rnd data Hrnd k 0) as (cs & Hcs & Hlen).
  destruct k as [|k].
  - destruct cs; [|discriminate]. exists (repeat 0%nat (length data)), [].
    rewrite Hcs. cbn [bind]. now rewrite kmeans_loop_no_centroid.
  - destruct (kmeans_loop_ok data (S k) (length point0) ltac:(lia) maxIterations
                (repeat 0%nat (length data)) cs Hlen) as (l2 & c2 & Hrun & Hl2).
    exists l2, c2. rewrite Hcs. cbn [bind]. now rewrite Hrun.
Qed.

Lemma insert_length (x : Ranked) (l : list Ranked) :
  length (insert x l) = S (length l).
Proof.
  induction l as [|y l IH]; [reflexivity|].
  cbn [insert]. destruct (0 <? comparator x y); cbn; auto.
Qed.

Lemma sort_length (l : list Ranked) : length (sort l) = length l.
Proof.
  induction l as [|x l IH]; [reflexivity|].
  cbn [sort fold_right]. fold (sort l). now rewrite insert_length, IH.
Qed.

Lemma centroidAverages_length (cs : matrix) :
  length (centroidAverages cs) = length cs.
Proof.
  unfold centroidAverages, Arr.mapi. now rewrite sort_length, mapi_from_length.
Qed.

(** The summaries: one per ranked centroid, the [i]-th with the [i]-th
    persona and the id of the [i]-th ranked centroid. *)
Lemma summarize_all_spec (students : list Student) (labels : list nat) (cs : matrix) :
  forall (items : list Ranked) (personaIndex : nat),
    (personaIndex + length items <= length personas)%nat ->
    exists cl,
      summarize_all students labels cs personaIndex items = Ok cl /\
      length cl = length items /\
      map cluster_id cl = map fst items /\
      forall j c, nth_error cl j = Some c ->
        exists p, nth_error personas (personaIndex + j) = Some p /\
                  persona c = persona_name p /\
                  description c = persona_description p.
Proof.
  induction items as [|item items IH]; intros personaIndex Hle.
  - exists []. repeat split. intros [|j] c H; discriminate H.
  - cbn [summarize_all length] in *. unfold summarize.
    destruct (nth_error personas personaIndex) as [p|] eqn:Hp.
    2:{ apply nth_error_None in Hp. lia. }
    cbn [bind].
    destruct (IH (S personaIndex)) as (cl & Hcl & Hlen & Hids & Hpers); [lia|].
    rewrite Hcl. cbn [bind]. eexists. split; [reflexivity|].
    split; [cbn; now rewrite Hlen|]. split; [cbn; now rewrite Hids|].
    intros [|j] c Hc; cbn in Hc.
    + injection Hc as <-. exists p. rewrite Nat.add_0_r. auto.
    + destruct (Hpers j c Hc) as (q & Hq & Hqn & Hqd).
      exists q. rewrite Nat.add_succ_r. auto.
Qed.

(** What [clusterStudents] does on a non-empty list with at most four
    clusters: every stage returns. *)
Lemma clusterStudents_stages (rnd : nat -> nat) (c : t) (students : list Student) (k : nat) :
  students <> [] -> (k <= 4)%nat ->
  (forall i, rnd i < length students)%nat ->
  exists nf labels cs cl,
    normalizeFeatures
      (map (fun s => [comprehension s; attention s; focus s; retention s]) students)
    = Ok nf /\
    kmeans rnd nf k 100 = Ok (labels, cs) /\
    length cs = k /\
    summarize_all students labels cs 0 (centroidAverages cs) = Ok cl /\
    clusterStudents rnd c students k
    = ({| clusters := cl; centroids := cs; isTrained := true |}, Ok cl).
Proof.
  intros Hne Hk Hrnd.
  set (features := map (fun s => [comprehension s; attention s; focus s; retention s])
                       students).
  destruct (normalizeFeatures_ok features) as (nf & Hnf & Hlen).
  { subst features. destruct students; [contradiction|discriminate]. }
  assert (Hflen : length features = length students) by (subst features; apply length_map).
  destruct (kmeans_ok rnd nf k 100) as (labels & cs & Hkm & Hcs).
  { destruct nf; [|discriminate]. destruct students; [contradiction|cbn in *; lia]. }
  { intros i. rewrite Hlen, Hflen. apply Hrnd. }
  destruct (summarize_all_spec students labels cs (centroidAverages cs) 0)
    as (cl & Hcl & _).
  { rewrite centroidAverages_length, Hcs. cbn. lia. }
  exists nf, labels, cs, cl. repeat split; try assumption.
  unfold clusterStudents. fold features. rewrite Hnf, Hkm, Hcl. reflexivity.
Qed.

(** C4 (as amended).  [clusterStudents] has no test on the number of
    records: on a non-empty list and at most four clusters it returns one
    summary per cluster, also when the records are fewer than the clusters. *)
Theorem clusterStudents_has_no_size_check (rnd : nat -> nat) (c : t)
  (students : list Student) (k : nat) :
  students <> [] -> (k <= 4)%nat ->
  (forall i, rnd i < length students)%nat ->
  exists cl,
    snd (clusterStudents rnd c students k) = Ok cl /\ length cl = k.
Proof.
  intros Hne Hk Hrnd.
  destruct (clusterStudents_stages rnd c students k Hne Hk Hrnd)
    as (nf & labels & cs & cl & _ & _ & Hcs & Hcl & Hrun).
  exists cl. rewrite Hrun. split; [reflexivity|].
  destruct (summarize_all_spec students labels cs (centroidAverages cs) 0)
    as (cl' & Hcl' & Hlen & _).
  { rewrite centroidAverages_length, Hcs. cbn. lia. }
  rewrite Hcl in Hcl'. injection Hcl' as <-.
  now rewrite Hlen, centroidAverages_length.
Qed.

Lemma clusterStudents_has_no_size_check_witness :
  exists cl,
    snd (clusterStudents draw_first new [low] 2) = Ok cl /\ length cl = 2%nat.
Proof.
  apply (clusterStudents_has_no_size_check draw_first new [low] 2).
  - discriminate.
  - lia.
  - intros i. unfold draw_first. simpl. lia.
Defined.

(** C4, the claim as written fails: one record and two clusters is not an
    [EmptyDatasetError]; the call returns two summaries, the second for a
    cluster without members. *)
Lemma clusterStudents_fewer_records_than_clusters :
  (length [low] < 2)%nat /\
  snd (clusterStudents draw_first new [low] 2) <> Throw EmptyDatasetError /\
  exists c0 c1,
    snd (clusterStudents draw_first new [low] 2) = Ok [c0; c1] /\
    Obj.get (characteristics c0) "count" = 1 /\
    Obj.get (characteristics c1) "count" = 0.
Proof.
  split; [cbn; lia|]. split.
  - vm_compute. discriminate.
  - do 2 eexists. vm_compute. repeat split.
Qed.

(** C1, the claim fails on the code.  The two training records are
    z-scored to -1 and +1 and are their clusters' centroids; [predictCluster]
    then scales the record by 1/100 instead, so the record [low], which
    trained cluster 0, lies nearer to centroid 1 and is given the summary of
    cluster 1.  Normalized as the training set was, it is given cluster 0. *)
Theorem predictCluster_does_not_zscore :
  let c := fst (clusterStudents draw_id new [low; high] 2) in
  normalizeFeatures [[10; 10; 10; 10]; [90; 90; 90; 90]]
  = Ok [[-1; -1; -1; -1]; [1; 1; 1; 1]] /\
  kmeans draw_id [[-1; -1; -1; -1]; [1; 1; 1; 1]] 2 100
  = Ok ([0; 1]%nat, [[-1; -1; -1; -1]; [1; 1; 1; 1]]) /\
  centroids c = [[-1; -1; -1; -1]; [1; 1; 1; 1]] /\
  cluster_features (partial_of low) = [0.1; 0.1; 0.1; 0.1] /\
  option_map cluster_id (predictCluster c (partial_of low)) = Some 1%nat /\
  option_map cluster_id (predictCluster_zscore [low; high] c (partial_of low)) = Some 0%nat.
Proof.
  vm_compute. repeat split.
Qed.

End KMeans.

(** ** Clustering: the persona ranking *)

Section Personas.
Import StudentClusterer.

Lemma ranks_before_trans (a b c : Ranked) :
  ranks_before a b -> ranks_before b c -> ranks_before a c.
Proof.
  unfold ranks_before. intros Hab Hbc. exact (FloatOrder.leb_trans _ _ _ Hbc Hab).
Qed.

Lemma insert_perm (x : Ranked) (l : list Ranked) : Permutation (insert x l) (x :: l).
Proof.
  induction l as [|y l IH]; [reflexivity|].
  cbn [insert]. destruct (0 <? comparator x y); [|reflexivity].
  rewrite IH. apply perm_swap.
Qed.

Lemma sort_perm (l : list Ranked) : Permutation (sort l) l.
Proof.
  induction l as [|x l IH]; [reflexivity|].
  cbn [sort fold_right]. fold (sort l). rewrite insert_perm. now constructor.
Qed.

Lemma insert_HdRel (y x : Ranked) (l : list Ranked) :
  ranks_before y x -> HdRel ranks_before y l -> HdRel ranks_before y (insert x l).
Proof.
  intros Hyx Hl. destruct l as [|z l]; cbn [insert].
  - now constructor.
  - destruct (0 <? comparator x z); constructor; [now inversion Hl|assumption].
Qed.

Lemma insert_sorted (x : Ranked) (l : list Ranked) :
  is_nan (snd x) = false ->
  Forall (fun y => is_nan (snd y) = false) l ->
  Sorted ranks_before l -> Sorted ranks_before (insert x l).
Proof.
  intros Hx Hl Hs. induction l as [|y l IH]; cbn [insert].
  - repeat constructor.
  - inversion Hl as [|? ? Hy Hl']; subst. inversion Hs as [|? ? Hs' Hhd]; subst.
    unfold comparator. rewrite FloatOrder.sub_positive_iff_lt by assumption.
    destruct (snd x <? snd y) eqn:Hlt.
    + constructor; [now apply IH|].
      apply insert_HdRel; [|assumption].
      now apply FloatOrder.ltb_leb.
    + constructor; [assumption|]. constructor.
      now apply FloatOrder.not_ltb_leb.
Qed.

Lemma sort_sorted (l : list Ranked) :
  Forall (fun y => is_nan (snd y) = false) l ->
  StronglySorted ranks_before (sort l).
Proof.
  intros Hl. apply Sorted_StronglySorted.
  - intros a b c. apply ranks_before_trans.
  - induction l as [|x l IH]; [constructor|].
    inversion Hl as [|? ? Hx Hl']; subst.
    cbn [sort fold_right]. fold (sort l). apply insert_sorted; auto.
    rewrite Forall_forall in *. intros y Hy. apply Hl'.
    now apply (Permutation_in _ (sort_perm l)).
Qed.

Lemma StronglySorted_nth_error {A : Type} (R : A -> A -> Prop) (l : list A) :
  StronglySorted R l ->
  forall i j a b, (i < j)%nat -> nth_error l i = Some a -> nth_error l j = Some b -> R a b.
Proof.
  induction 1 as [|x l Hs IH Hall]; intros i j a b Hij Hi Hj.
  - destruct i; discriminate.
  - destruct j as [|j]; [lia|]. cbn in Hj. destruct i as [|i]; cbn in Hi.
    + injection Hi as <-. rewrite Forall_forall in Hall.
      apply Hall. eapply nth_error_In; eassumption.
    + apply (IH i j); auto. lia.
Qed.

(** The list [sort] is applied to: the [i]-th entry is the index [i] with
    the average of centroid [i]. *)
Lemma indexed_averages (cs : matrix) (i0 : nat) :
  map fst (Arr.mapi_from (fun index centroid => (index, centroid_average centroid)) i0 cs)
  = seq i0 (length cs) /\
  Forall (fun item : Ranked =>
            exists centroid, nth_error cs (fst item - i0) = Some centroid /\
                             (i0 <= fst item)%nat /\
                             snd item = centroid_average centroid)
         (Arr.mapi_from (fun index centroid => (index, centroid_average centroid)) i0 cs).
Proof.
  revert i0. induction cs as [|c cs IH]; intros i0; cbn.
  - split; constructor.
  - destruct (IH (S i0)) as [Hids Hall]. split; [f_equal; exact Hids|].
    constructor.
    + exists c. cbn. rewrite Nat.sub_diag. auto.
    + rewrite Forall_forall in *. intros item Hin.
      destruct (Hall item Hin) as (centroid & Hget & Hle & Havg).
      exists centroid. replace (fst item - i0)%nat with (S (fst item - S i0)) by lia.
      cbn. repeat split; auto. lia.
Qed.

Lemma centroidAverages_spec (cs : matrix) :
  Permutation (map fst (centroidAverages cs)) (seq 0 (length cs)) /\
  (forall item, In item (centroidAverages cs) ->
     snd item = centroid_average (nth (fst item) cs [])) /\
  ((forall centroid, In centroid cs -> is_nan (centroid_average centroid) = false) ->
   StronglySorted ranks_before (centroidAverages cs)).
Proof.
  unfold centroidAverages, Arr.mapi.
  destruct (indexed_averages cs 0) as [Hids Hall].
  set (items := Arr.mapi_from (fun index centroid => (index, centroid_average centroid)) 0 cs)
    in *.
  rewrite Forall_forall in Hall.
  split; [|split].
  - rewrite <- Hids. apply Permutation_map, sort_perm.
  - intros item Hin. apply (Permutation_in _ (sort_perm items)) in Hin.
    destruct (Hall item Hin) as (centroid & Hget & _ & Havg).
    rewrite Nat.sub_0_r in Hget. now rewrite (nth_error_nth _ _ [] Hget).
  - intros Hnan. apply sort_sorted. rewrite Forall_forall. intros item Hin.
    destruct (Hall item Hin) as (centroid & Hget & _ & Havg).
    rewrite Havg. apply Hnan. eapply nth_error_In; eassumption.
Qed.

Lemma nth_error_map_fst (cl : list ClusterResult) (items : list Ranked) :
  map cluster_id cl = map fst items ->
  forall i ci, nth_error cl i = Some ci ->
    exists item, nth_error items i = Some item /\ fst item = cluster_id ci.
Proof.
  intros Hmap i ci Hi.
  assert (H : nth_error (map fst items) i = Some (cluster_id ci)).
  { rewrite <- Hmap. now apply map_nth_error. }
  rewrite nth_error_map in H.
  destruct (nth_error items i) as [item|]; cbn in H; [|discriminate H].
  exists item. split; [reflexivity|congruence].
Qed.

Lemma ranking_by_centroid_average (rnd : nat -> nat) (c : t)
  (students : list Student) (k : nat) :
  students <> [] -> (k <= 4)%nat ->
  (forall i, rnd i < length students)%nat ->
  (forall centroid,
      In centroid (centroids (fst (clusterStudents rnd c students k))) ->
      is_nan (centroid_average centroid) = false) ->
  exists c' cl,
    clusterStudents rnd c students k = (c', Ok cl) /\
    clusters c' = cl /\
    length (centroids c') = k /\
    Permutation (map cluster_id cl) (seq 0 k) /\
    (forall i ci, nth_error cl i = Some ci ->
       exists p, nth_error personas i = Some p /\ persona ci = persona_name p) /\
    (forall i j ci cj,
       (i < j)%nat -> nth_error cl i = Some ci -> nth_error cl j = Some cj ->
       (centroid_average (nth (cluster_id cj) (centroids c') []) <=? centroid_average (nth (cluster_id ci) (centroids c') [])) = true) /\
    (forall top,
       nth_error cl 0 = Some top ->
       persona top = "High Achievers" /\
       forall id, (id < k)%nat ->
         (centroid_average (nth id (centroids c') []) <=? centroid_average (nth (cluster_id top) (centroids c') [])) = true).
Proof.
  intros Hne Hk Hrnd Hnan.
  destruct (clusterStudents_stages rnd c students k Hne Hk Hrnd)
    as (nf & labels & cs & cl & _ & _ & Hcs & Hcl & Hrun).
  rewrite Hrun in Hnan. cbn [fst centroids] in Hnan.
  destruct (summarize_all_spec students labels cs (centroidAverages cs) 0)
    as (cl' & Hcl' & Hlen & Hids & Hpers).
  { rewrite centroidAverages_length, Hcs. cbn. lia. }
  rewrite Hcl in Hcl'. injection Hcl' as <-.
  destruct (centroidAverages_spec cs) as (Hperm & Havg & Hsorted).
  exists {| clusters := cl; centroids := cs; isTrained := true |}, cl.
  cbn [clusters centroids].
  split; [exact Hrun|]. split; [reflexivity|]. split; [exact Hcs|].
  split; [now rewrite Hids, <- Hcs|].
  split.
  { intros i ci Hi. destruct (Hpers i ci Hi) as (p & Hp & Hn & _). now exists p. }
  specialize (Hsorted Hnan).
  assert (Hmean : forall i ci item,
             nth_error cl i = Some ci -> nth_error (centroidAverages cs) i = Some item ->
             centroid_average (nth (cluster_id ci) cs []) = snd item).
  { intros i ci item Hi Hitem.
    destruct (nth_error_map_fst cl _ Hids i ci Hi) as (item' & Hitem' & Hfst).
    rewrite Hitem in Hitem'. injection Hitem' as <-.
    rewrite <- Hfst. symmetry. apply Havg.
    eapply nth_error_In; eassumption. }
  assert (Hdesc : forall i j ci cj,
             (i < j)%nat -> nth_error cl i = Some ci -> nth_error cl j = Some cj ->
             (centroid_average (nth (cluster_id cj) cs [])
              <=? centroid_average (nth (cluster_id ci) cs [])) = true).
  { intros i j ci cj Hij Hi Hj.
    destruct (nth_error_map_fst cl _ Hids i ci Hi) as (a & Ha & _).
    destruct (nth_error_map_fst cl _ Hids j cj Hj) as (b & Hb & _).
    rewrite (Hmean i ci a Hi Ha), (Hmean j cj b Hj Hb).
    exact (StronglySorted_nth_error ranks_before _ Hsorted i j a b Hij Ha Hb). }
  split; [exact Hdesc|].
  intros top Htop. split.
  { destruct (Hpers 0%nat top Htop) as (p & Hp & Hn & _).
    cbn in Hp. injection Hp as <-. exact Hn. }
  intros id Hid.
  assert (Hin : In id (map cluster_id cl)).
  { rewrite Hids. apply (Permutation_in _ (Permutation_sym Hperm)).
    rewrite Hcs. apply in_seq. lia. }
  apply in_map_iff in Hin as (cj & <- & Hin).
  apply In_nth_error in Hin as [j Hj].
  destruct j as [|j].
  - rewrite Hj in Htop. injection Htop as <-.
    apply FloatOrder.leb_refl. apply Hnan, nth_In. lia.
  - apply (Hdesc 0%nat (S j) top cj); auto. lia.
Qed.

End Personas.

(** * Further properties

    ** Signs of binary64 results *)

Module FloatSign.
Import FloatOrder.
Local Open Scope Z_scope.

Lemma binary_round_aux_has_sign (s : bool) (m e : Z) (l : location) :
  0 <= m -> SF_has_sign s (binary_round_aux FloatOps.prec FloatOps.emax s m e l).
Proof.
  intros Hm. unfold binary_round_aux.
  pose proof (shr_fexp_nonneg m e l Hm) as H1.
  destruct (shr_fexp FloatOps.prec FloatOps.emax m e l) as [r1 e1]. cbn [fst] in H1.
  pose proof (round_nearest_even_ge (shr_m r1) (loc_of_shr_record r1)) as Hr.
  pose proof (shr_fexp_nonneg (round_nearest_even (shr_m r1) (loc_of_shr_record r1)) e1
                loc_Exact ltac:(lia)) as H2.
  destruct (shr_fexp FloatOps.prec FloatOps.emax _ e1 loc_Exact) as [r2 e2]. cbn [fst] in H2.
  destruct (shr_m r2) as [|q|q]; try lia; [reflexivity|].
  destruct (Z.leb e2 (FloatOps.emax - FloatOps.prec)); reflexivity.
Qed.

Lemma has_sign_clear (x : spec_float) : SF_has_sign false x -> SF_sign_clear x = true.
Proof.
  destruct x; cbn; intros H; subst; auto; contradiction.
Qed.

Lemma SFmul_comm (x y : spec_float) :
  SFmul FloatOps.prec FloatOps.emax x y = SFmul FloatOps.prec FloatOps.emax y x.
Proof.
  destruct x as [sx|sx| |sx mx ex], y as [sy|sy| |sy my ey]; cbn [SFmul];
    try reflexivity; try (now rewrite xorb_comm).
  now rewrite xorb_comm, Pos.mul_comm, Z.add_comm.
Qed.

Lemma SFmul_self_sign (x : spec_float) :
  SF_sign_clear (SFmul FloatOps.prec FloatOps.emax x x) = true.
Proof.
  destruct x as [s|s| |s m e]; cbn [SFmul]; try (destruct s; reflexivity); try reflexivity.
  apply has_sign_clear. rewrite xorb_nilpotent. apply binary_round_aux_has_sign. lia.
Qed.

Lemma SFmul_sign (x y : spec_float) :
  SF_sign_clear x = true -> SF_sign_clear y = true ->
  SF_sign_clear (SFmul FloatOps.prec FloatOps.emax x y) = true.
Proof.
  destruct x as [sx|sx| |sx mx ex], y as [sy|sy| |sy my ey]; cbn [SF_sign_clear SFmul];
    intros Hx Hy; try reflexivity;
    try (destruct sx, sy; try discriminate; reflexivity).
  destruct sx, sy; try discriminate.
  apply has_sign_clear, binary_round_aux_has_sign. lia.
Qed.

Lemma SFdiv_sign (x y : spec_float) :
  SF_sign_clear x = true -> SF_sign_clear y = true ->
  SF_sign_clear (SFdiv FloatOps.prec FloatOps.emax x y) = true.
Proof.
  destruct x as [sx|sx| |sx mx ex], y as [sy|sy| |sy my ey]; cbn [SF_sign_clear SFdiv];
    intros Hx Hy; try reflexivity;
    try (destruct sx, sy; try discriminate; reflexivity).
  destruct sx, sy; try discriminate.
  unfold SFdiv_core_binary.
  set (m' := match _ with Z0 => Zpos mx | Zpos _ => _ | Zneg _ => 0 end).
  assert (Hm' : 0 <= m').
  { subst m'. destruct (_ - _ - _) as [|p|p]; try lia. apply Z.shiftl_nonneg. lia. }
  pose proof (Z_div_mod m' (Zpos my) ltac:(lia)) as Hdiv.
  destruct (Z.div_eucl m' (Zpos my)) as [q r].
  apply has_sign_clear, binary_round_aux_has_sign. nia.
Qed.

Lemma SFadd_sign (x y : spec_float) :
  valid_binary x = true -> valid_binary y = true ->
  SF_sign_clear x = true -> SF_sign_clear y = true ->
  SF_sign_clear (SFadd FloatOps.prec FloatOps.emax x y) = true.
Proof.
  destruct x as [sx|sx| |sx mx ex], y as [sy|sy| |sy my ey];
    cbn [valid_binary SF_sign_clear SFadd]; intros Vx Vy Hx Hy; try reflexivity;
    try (destruct sx, sy; try discriminate; reflexivity);
    try (destruct sx; try discriminate; reflexivity);
    try (destruct sy; try discriminate; reflexivity).
  destruct sx, sy; try discriminate. cbn [cond_Zopp].
  apply bounded_inv in Vx as (Hex & _). apply bounded_inv in Vy as (Hey & _).
  rewrite <- Pos2Z.inj_add. cbn [binary_normalize].
  pose proof (binary_round_sign false
                (fst (shl_align mx ex (Z.min ex ey)) + fst (shl_align my ey (Z.min ex ey)))
                (Z.min ex ey) ltac:(lia)) as H.
  destruct (binary_round _ _ false _ _); cbn in H |- *; subst; auto; contradiction.
Qed.

Lemma SFabs_sign (x : spec_float) : SF_sign_clear (SFabs x) = true.
Proof.
  now destruct x.
Qed.

Lemma SFsub_self (x : spec_float) :
  SF_is_nan x = false -> SF_is_inf x = false ->
  SFsub FloatOps.prec FloatOps.emax x x = S754_zero false.
Proof.
  destruct x as [s|s| |s m e]; cbn [SF_is_nan SF_is_inf SFsub]; intros Hn Hi;
    try discriminate.
  - now destruct s.
  - now rewrite Z.sub_diag.
Qed.

Local Open Scope float_scope.

Lemma sign_clear_nonneg (v : float) : sign_clear v -> nan_or_nonneg v.
Proof.
  unfold sign_clear, nan_or_nonneg. rewrite is_nan_spec, leb_spec.
  change (Prim2SF 0) with (S754_zero false).
  destruct (Prim2SF v) as [s|s| |s m e]; cbn; auto; destruct s; cbn; auto; discriminate.
Qed.

Lemma mul_comm (x y : float) : x * y = y * x.
Proof.
  apply Prim2SF_inj. rewrite !mul_spec. apply SFmul_comm.
Qed.

Lemma mul_self_sign (x : float) : sign_clear (x * x).
Proof.
  unfold sign_clear. rewrite mul_spec. apply SFmul_self_sign.
Qed.

Lemma mul_sign (x y : float) : sign_clear x -> sign_clear y -> sign_clear (x * y).
Proof.
  unfold sign_clear. rewrite mul_spec. apply SFmul_sign.
Qed.

Lemma div_sign (x y : float) : sign_clear x -> sign_clear y -> sign_clear (x / y).
Proof.
  unfold sign_clear. rewrite div_spec. apply SFdiv_sign.
Qed.

Lemma add_sign (x y : float) : sign_clear x -> sign_clear y -> sign_clear (x + y).
Proof.
  unfold sign_clear. rewrite add_spec. apply SFadd_sign; apply Prim2SF_valid.
Qed.

Lemma abs_sign (x : float) : sign_clear (abs x).
Proof.
  unfold sign_clear. rewrite abs_spec. apply SFabs_sign.
Qed.


Lemma is_finite_spec (v : float) :
  is_finite v = true ->
  SF_is_nan (Prim2SF v) = false /\ SF_is_inf (Prim2SF v) = false.
Proof.
  unfold is_finite, is_infinity. rewrite is_nan_spec, eqb_spec, abs_spec.
  change (Prim2SF infinity) with (S754_infinity false).
  destruct (Prim2SF v) as [s|s| |s m e]; cbn; auto; discriminate.
Qed.

Lemma sub_self (v : float) : is_finite v = true -> v - v = 0.
Proof.
  intros Hf. apply is_finite_spec in Hf as [Hn Hi].
  apply Prim2SF_inj. rewrite sub_spec.
  change (Prim2SF 0) with (S754_zero false). now apply SFsub_self.
Qed.

End FloatSign.

(** ** Model metrics *)

Section MetricsProperties.
Import Metrics FloatSign.


Lemma zero_sign : sign_clear 0.
Proof.
  reflexivity.
Qed.



Lemma sumProducts_combine (x y : list float) :
  forall (pre : list float) (i : nat) (acc : float),
    length pre = i -> length x = length y ->
    Arr.foldi_from (fun acc curr i => acc + curr * Arr.get (pre ++ y) i) i x acc
    = fold_left (fun acc cd => acc + fst cd * snd cd) (combine x y) acc.
Proof.
  revert y. induction x as [|c x IH]; intros [|d y] pre i acc Hpre Hlen;
    try discriminate; [reflexivity|].
  cbn [Arr.foldi_from combine fold_left fst snd].
  assert (Hget : Arr.get (pre ++ d :: y) i = d).
  { unfold Arr.get. subst i. now rewrite nth_middle. }
  rewrite Hget.
  replace (pre ++ d :: y) with ((pre ++ [d]) ++ y) by now rewrite <- app_assoc.
  apply IH; [rewrite length_app; cbn; lia|]. cbn in Hlen. lia.
Qed.

Lemma sumProducts_comm (x y : list float) :
  length x = length y -> sumProducts x y = sumProducts y x.
Proof.
  intros Hlen. unfold sumProducts, Arr.foldi.
  pose proof (sumProducts_combine x y [] 0 0 eq_refl Hlen) as Hxy.
  pose proof (sumProducts_combine y x [] 0 0 eq_refl (eq_sym Hlen)) as Hyx.
  cbn [app] in Hxy, Hyx. rewrite Hxy, Hyx. clear Hxy Hyx.
  generalize 0. revert y Hlen.
  induction x as [|c x IH]; intros [|d y] Hlen acc; try discriminate; [reflexivity|].
  cbn [combine fold_left fst snd]. rewrite (mul_comm c d). apply IH.
  cbn in Hlen. lia.
Qed.

(** The correlation is symmetric on series of one length:
    [calculateCorrelation(x, y) = calculateCorrelation(y, x)], bit for bit. *)
Theorem calculateCorrelation_symmetric (x y : list float) :
  length x = length y ->
  calculateCorrelation x y = calculateCorrelation y x.
Proof.
  intros Hlen. unfold calculateCorrelation, correlationDenominator.
  rewrite (sumProducts_comm x y Hlen), Hlen.
  rewrite (mul_comm (sum x) (sum y)).
  rewrite (mul_comm (Num.of_nat (length y) * sumSquares x - sum x * sum x)).
  reflexivity.
Qed.

Lemma calculateCorrelation_symmetric_witness :
  calculateCorrelation [1; 2; 4] [3; 5; 6] = calculateCorrelation [3; 5; 6] [1; 2; 4].
Proof.
  apply (calculateCorrelation_symmetric [1; 2; 4] [3; 5; 6]). reflexivity.
Defined.

Lemma residual_self_from (l : list float) :
  forall pre i,
    length pre = i -> Forall (fun v => is_finite v = true) l ->
    Arr.foldi_from
      (fun sum val index => sum + Num.Math_pow2 (val - Arr.get (pre ++ l) index)) i l 0
    = 0.
Proof.
  induction l as [|v l IH]; intros pre i Hpre Hfin; [reflexivity|].
  inversion Hfin as [|? ? Hv Hl]; subst.
  cbn [Arr.foldi_from].
  assert (Hget : Arr.get (pre ++ v :: l) (length pre) = v).
  { unfold Arr.get. now rewrite nth_middle. }
  rewrite Hget, (sub_self v Hv).
  change (0 + Num.Math_pow2 0) with 0.
  replace (pre ++ v :: l) with ((pre ++ [v]) ++ l) by now rewrite <- app_assoc.
  apply IH; [rewrite length_app; cbn; lia|assumption].
Qed.

Lemma totalSumSquares_sign (actual : list float) : sign_clear (totalSumSquares actual).
Proof.
  unfold totalSumSquares. generalize (actualMean actual). intros mean.
  assert (H : forall acc, sign_clear acc ->
                sign_clear (fold_left (fun sum val => sum + Num.Math_pow2 (val - mean))
                                      actual acc)).
  { induction actual as [|v l IH]; intros acc Hacc; [exact Hacc|].
    cbn [fold_left]. apply IH, add_sign; [assumption|apply mul_self_sign]. }
  apply H, zero_sign.
Qed.

Lemma zero_div_positive (t : float) :
  sign_clear t -> is_nan t = false -> (t =? 0) = false -> 0 / t = 0.
Proof.
  unfold sign_clear. rewrite FloatOrder.is_nan_spec, eqb_spec.
  intros Hs Hn Hz. apply Prim2SF_inj. rewrite div_spec.
  change (Prim2SF 0) with (S754_zero false) in *.
  destruct (Prim2SF t) as [s|s| |s m e]; cbn in Hs, Hn, Hz |- *; try discriminate;
    destruct s; try discriminate; reflexivity.
Qed.

(** A perfect prediction has [R^2 = 1] exactly, when the actual values
    are finite and their total sum of squares is a number other than zero;
    the residual sum is then exactly [0]. *)
Theorem calculateR2Score_perfect (actual : list float) :
  Forall (fun v => is_finite v = true) actual ->
  is_nan (totalSumSquares actual) = false ->
  (totalSumSquares actual =? 0) = false ->
  residualSumSquares actual actual = 0 /\
  calculateR2Score actual actual = 1.
Proof.
  intros Hfin Hnan Hnz.
  assert (Hres : residualSumSquares actual actual = 0).
  { unfold residualSumSquares, Arr.foldi. exact (residual_self_from actual [] 0 eq_refl Hfin). }
  split; [exact Hres|].
  unfold calculateR2Score. rewrite Hres.
  rewrite (zero_div_positive _ (totalSumSquares_sign actual) Hnan Hnz). reflexivity.
Qed.

Lemma calculateR2Score_perfect_witness :
  residualSumSquares [70; 80; 90] [70; 80; 90] = 0 /\
  calculateR2Score [70; 80; 90] [70; 80; 90] = 1.
Proof.
  apply (calculateR2Score_perfect [70; 80; 90]).
  - repeat constructor.
  - vm_compute. reflexivity.
  - vm_compute. reflexivity.
Defined.

End MetricsProperties.

(** ** Strict order of binary64 numbers *)

Module FloatLt.
Import FloatOrder.

Lemma SFltb_trans (x y z : spec_float) :
  SFltb x y = true -> SFltb y z = true -> SFltb x z = true.
Proof.
  unfold SFltb.
  destruct x as [sx|sx| |sx mx ex], y as [sy|sy| |sy my ey], z as [sz|sz| |sz mz ez];
    cbn; try discriminate; try reflexivity;
    try (destruct sx; cbn; try discriminate; try reflexivity);
    try (destruct sy; cbn; try discriminate; try reflexivity);
    try (destruct sz; cbn; try discriminate; try reflexivity);
    cmp_cases; subst; try discriminate; try reflexivity; try lia.
Qed.

Lemma SFltb_leb_trans (x y z : spec_float) :
  SFltb x y = true -> SFleb y z = true -> SFltb x z = true.
Proof.
  unfold SFltb, SFleb.
  destruct x as [sx|sx| |sx mx ex], y as [sy|sy| |sy my ey], z as [sz|sz| |sz mz ez];
    cbn; try discriminate; try reflexivity;
    try (destruct sx; cbn; try discriminate; try reflexivity);
    try (destruct sy; cbn; try discriminate; try reflexivity);
    try (destruct sz; cbn; try discriminate; try reflexivity);
    cmp_cases; subst; try discriminate; try reflexivity; try lia.
Qed.

Lemma SFleb_ltb_trans (x y z : spec_float) :
  SFleb x y = true -> SFltb y z = true -> SFltb x z = true.
Proof.
  unfold SFltb, SFleb.
  destruct x as [sx|sx| |sx mx ex], y as [sy|sy| |sy my ey], z as [sz|sz| |sz mz ez];
    cbn; try discriminate; try reflexivity;
    try (destruct sx; cbn; try discriminate; try reflexivity);
    try (destruct sy; cbn; try discriminate; try reflexivity);
    try (destruct sz; cbn; try discriminate; try reflexivity);
    cmp_cases; subst; try discriminate; try reflexivity; try lia.
Qed.

Lemma ltb_trans (a b c : float) : (a <? b) = true -> (b <? c) = true -> (a <? c) = true.
Proof.
  rewrite !ltb_spec. apply SFltb_trans.
Qed.

Lemma ltb_leb_trans (a b c : float) :
  (a <? b) = true -> (b <=? c) = true -> (a <? c) = true.
Proof.
  rewrite !ltb_spec, leb_spec. apply SFltb_leb_trans.
Qed.

Lemma leb_ltb_trans (a b c : float) :
  (a <=? b) = true -> (b <? c) = true -> (a <? c) = true.
Proof.
  rewrite !ltb_spec, leb_spec. apply SFleb_ltb_trans.
Qed.

Lemma ltb_irrefl (a : float) : (a <? a) = false.
Proof.
  rewrite ltb_spec. unfold SFltb.
  destruct (SF_is_nan (Prim2SF a)) eqn:Hn.
  - destruct (Prim2SF a); try discriminate. reflexivity.
  - now rewrite SFcompare_refl.
Qed.

Lemma ltb_not_nan (a b : float) :
  (a <? b) = true -> is_nan a = false /\ is_nan b = false.
Proof.
  intros H. apply ltb_leb, leb_not_nan in H. exact H.
Qed.

(** Nothing but NaN and [Infinity] itself fails to be below [Infinity],
    and those two are below nothing. *)
Lemma not_below_infinity (x y : float) :
  (x <? infinity) = false -> (x <? y) = false.
Proof.
  rewrite !ltb_spec. change (Prim2SF infinity) with (S754_infinity false).
  unfold SFltb.
  destruct (Prim2SF x) as [s|s| |s m e], (Prim2SF y) as [s'|s'| |s' m' e']; cbn;
    try reflexivity; try discriminate; destruct s; try discriminate;
    try reflexivity; destruct s'; reflexivity.
Qed.

End FloatLt.

(** ** Distances and the nearest centroid *)

Section Nearest.
Import StudentClusterer FloatSign FloatLt.

(** The distance of a point of finite coordinates to itself is exactly 0. *)
Theorem euclideanDistance_self (a : list float) :
  Forall (fun v => is_finite v = true) a -> euclideanDistance a a = 0.
Proof.
  intros Hfin. unfold euclideanDistance, Arr.foldi.
  pose proof (residual_self_from a [] 0 eq_refl Hfin) as H. cbn [app] in H.
  rewrite H. reflexivity.
Qed.

Lemma euclideanDistance_self_witness : euclideanDistance [10; 20.5; 0] [10; 20.5; 0] = 0.
Proof.
  apply (euclideanDistance_self [10; 20.5; 0]). repeat constructor.
Defined.

Variable point : list float.

(** What the search knows after the centroids [seen]: the current minimum
    is a number, no centroid seen is strictly nearer, the index is that of
    the centroid whose distance it is (or nothing was below [Infinity] yet),
    and every centroid before that index is strictly farther, if its distance
    is a number. *)
Let search_inv (seen : matrix) (st : float * nat) : Prop :=
  is_nan (fst st) = false /\
  (forall c, In c seen -> (euclideanDistance point c <? fst st) = false) /\
  ((fst st = infinity /\ snd st = 0%nat) \/
   (exists c, nth_error seen (snd st) = Some c /\ fst st = euclideanDistance point c)) /\
  (forall j c, (j < snd st)%nat -> nth_error seen j = Some c ->
               is_nan (euclideanDistance point c) = false ->
               (fst st <? euclideanDistance point c) = true).

Lemma search_step (seen : matrix) (st : float * nat) (c : list float) :
  search_inv seen st ->
  search_inv (seen ++ [c]) (nearer point st c (length seen)).
Proof.
  intros (Hnan & Hmin & Hidx & Hfirst). unfold nearer. cbv zeta.
  destruct (euclideanDistance point c <? fst st) eqn:Hlt.
  - destruct (ltb_not_nan _ _ Hlt) as [Hc _].
    split; [exact Hc|]. split; [|split].
    + intros c' Hin. cbn [fst]. apply in_app_or in Hin as [Hin|[<-|[]]].
      * destruct (euclideanDistance point c' <? euclideanDistance point c) eqn:H;
          [|reflexivity].
        rewrite <- (Hmin c' Hin). symmetry. exact (ltb_trans _ _ _ H Hlt).
      * apply ltb_irrefl.
    + right. exists c. cbn [fst snd]. split; [|reflexivity].
      rewrite nth_error_app2 by lia. now rewrite Nat.sub_diag.
    + intros j c' Hj Hget Hc'. cbn [fst snd] in *.
      rewrite nth_error_app1 in Hget by lia.
      apply ltb_leb_trans with (fst st); [exact Hlt|].
      apply FloatOrder.not_ltb_leb; auto.
      apply Hmin. eapply nth_error_In; eassumption.
  - split; [exact Hnan|]. split; [|split].
    + intros c' Hin. apply in_app_or in Hin as [Hin|[<-|[]]]; auto.
    + destruct Hidx as [Hinf|(c' & Hget & Heq)]; [now left|right].
      exists c'. split; [|exact Heq].
      rewrite nth_error_app1; [exact Hget|].
      apply nth_error_Some. congruence.
    + intros j c' Hj Hget Hc'.
      assert (Hlen : (snd st < length seen)%nat).
      { destruct Hidx as [[_ H0]|(c0 & Hget0 & _)].
        - lia.
        - apply nth_error_Some. congruence. }
      rewrite nth_error_app1 in Hget by lia. eauto.
Qed.

Lemma search_all (cs : matrix) :
  forall seen st,
    search_inv seen st ->
    search_inv (seen ++ cs) (Arr.foldi_from (nearer point) (length seen) cs st).
Proof.
  induction cs as [|c cs IH]; intros seen st Hinv.
  - now rewrite app_nil_r.
  - cbn [Arr.foldi_from].
    replace (seen ++ c :: cs) with ((seen ++ [c]) ++ cs) by now rewrite <- app_assoc.
    replace (S (length seen)) with (length (seen ++ [c])) by (rewrite length_app; cbn; lia).
    apply IH, search_step, Hinv.
Qed.

Lemma search_result (cs : matrix) :
  search_inv cs (Arr.foldi (nearer point) cs (infinity, 0%nat)).
Proof.
  apply (search_all cs [] (infinity, 0%nat)).
  split; [reflexivity|]. split; [intros c []|]. split; [now left|].
  intros j c Hj. cbn in Hj. lia.
Qed.

(** No centroid is strictly nearer to the point than the one [nearest]
    returns. *)
Theorem nearest_is_closest (cs : matrix) (centroid : list float) :
  In centroid cs ->
  (euclideanDistance point centroid
   <? euclideanDistance point (nth (nearest point cs) cs [])) = false.
Proof.
  intros Hin. destruct (search_result cs) as (_ & Hmin & Hidx & _).
  unfold nearest. destruct Hidx as [[Hinf _]|(c & Hget & Heq)].
  - apply not_below_infinity. rewrite <- Hinf. now apply Hmin.
  - rewrite (nth_error_nth _ _ [] Hget), <- Heq. now apply Hmin.
Qed.

(** Among equally near centroids the first wins: every centroid before
    the one [nearest] returns is strictly farther from the point (where its
    distance is a number). *)
Theorem nearest_is_first (cs : matrix) (j : nat) (centroid : list float) :
  (j < nearest point cs)%nat ->
  nth_error cs j = Some centroid ->
  is_nan (euclideanDistance point centroid) = false ->
  (euclideanDistance point (nth (nearest point cs) cs [])
   <? euclideanDistance point centroid) = true.
Proof.
  intros Hj Hget Hnum. destruct (search_result cs) as (_ & _ & Hidx & Hfirst).
  unfold nearest in *. destruct Hidx as [[_ H0]|(c & Hc & Heq)]; [lia|].
  rewrite (nth_error_nth _ _ [] Hc), <- Heq. eauto.
Qed.

End Nearest.

Lemma nearest_is_closest_witness :
  (StudentClusterer.euclideanDistance [0.1; 0.1] [1; 1]
   <? StudentClusterer.euclideanDistance [0.1; 0.1]
        (nth (StudentClusterer.nearest [0.1; 0.1] [[-1; -1]; [1; 1]])
             [[-1; -1]; [1; 1]] [])) = false.
Proof.
  apply (nearest_is_closest [0.1; 0.1] [[-1; -1]; [1; 1]] [1; 1]). simpl. auto.
Defined.

Lemma nearest_is_first_witness :
  (StudentClusterer.euclideanDistance [0.1; 0.1]
     (nth (StudentClusterer.nearest [0.1; 0.1] [[-1; -1]; [1; 1]]) [[-1; -1]; [1; 1]] [])
   <? StudentClusterer.euclideanDistance [0.1; 0.1] [-1; -1]) = true.
Proof.
  apply (nearest_is_first [0.1; 0.1] [[-1; -1]; [1; 1]] 0 [-1; -1]).
  - vm_compute. lia.
  - reflexivity.
  - vm_compute. reflexivity.
Defined.

(** ** The result of k-means *)

Section KMeansResult.
Import StudentClusterer.

Lemma set_length (l : list float) (j : nat) (v : float) :
  (j < length l)%nat -> length (Arr.set l j v) = length l.
Proof.
  revert j. induction l as [|x l IH]; intros [|j] Hj; cbn in *; try lia.
  rewrite IH; lia.
Qed.

Lemma add_point_from_length (point : list float) :
  forall (i : nat) (centroid : list float),
    (i + length point <= length centroid)%nat ->
    length (Arr.foldi_from (fun c val dim => Arr.set c dim (Arr.get c dim + val))
                           i point centroid)
    = length centroid.
Proof.
  induction point as [|v point IH]; intros i centroid Hle; [reflexivity|].
  cbn [Arr.foldi_from length] in *.
  rewrite IH; rewrite set_length by lia; lia.
Qed.

Lemma add_point_length (centroid point : list float) :
  length point = length centroid -> length (add_point centroid point) = length centroid.
Proof.
  intros H. unfold add_point, Arr.foldi. apply add_point_from_length. lia.
Qed.

Lemma assigned_from_incl (data : matrix) (labels : list nat) (c : nat) :
  forall index point, In point (assigned_from data index labels c) -> In point data.
Proof.
  induction data as [|p data IH]; intros index point Hin; [contradiction|].
  cbn [assigned_from] in Hin.
  destruct (Nat.eqb (nth index labels 0%nat) c).
  - destruct Hin as [<-|Hin]; [now left|right; eauto].
  - right. eauto.
Qed.

Lemma mean_point_length (points : matrix) (d : nat) :
  Forall (fun p => length p = d) points -> length (mean_point points d) = d.
Proof.
  intros Hall. unfold mean_point. rewrite length_map.
  assert (H : forall acc, length acc = d -> length (fold_left add_point points acc) = d).
  { induction points as [|p points IH]; intros acc Hacc; [exact Hacc|].
    inversion Hall; subst. cbn [fold_left]. apply IH; [assumption|].
    rewrite add_point_length; congruence. }
  apply H. apply repeat_length.
Qed.

Lemma update_centroids_shape (data : matrix) (labels : list nat) (k d : nat) :
  (forall i, nth i labels 0 < k)%nat ->
  Forall (fun p => length p = d) data ->
  exists newCentroids,
    update_centroids data labels k d = Ok newCentroids /\
    length newCentroids = k /\
    Forall (fun c => length c = d) newCentroids.
Proof.
  intros Hlab Hdata.
  destruct (update_centroids_spec data labels k d Hlab) as (nc & Hrun & Hlen & Hspec).
  exists nc. split; [exact Hrun|]. split; [exact Hlen|].
  apply Forall_forall. intros c Hin.
  apply (In_nth _ _ []) in Hin as (i & Hi & <-).
  rewrite Hspec by lia.
  destruct (assigned data labels i) as [|p ps] eqn:Hm.
  - apply repeat_length.
  - apply mean_point_length. apply Forall_forall. intros q Hq.
    rewrite Forall_forall in Hdata. apply Hdata.
    rewrite <- Hm in Hq. eapply assigned_from_incl. exact Hq.
Qed.

Lemma assign_length (data cs : matrix) : length (assign data cs) = length data.
Proof.
  apply length_map.
Qed.

Lemma assign_bound (data cs : matrix) :
  cs <> [] -> Forall (fun l => l < length cs)%nat (assign data cs).
Proof.
  intros Hne. apply Forall_forall. intros l Hin.
  apply in_map_iff in Hin as (p & <- & _). now apply nearest_lt.
Qed.

Lemma kmeans_loop_shape (data : matrix) (k d : nat) :
  (0 < k)%nat -> Forall (fun p => length p = d) data ->
  forall iterations labels cs,
    length labels = length data -> Forall (fun l => l < k)%nat labels ->
    length cs = k -> Forall (fun c => length c = d) cs ->
    exists labels' cs',
      kmeans_loop iterations data k d (labels, cs) = Ok (labels', cs') /\
      length labels' = length data /\ Forall (fun l => l < k)%nat labels' /\
      length cs' = k /\ Forall (fun c => length c = d) cs'.
Proof.
  intros Hk Hdata. induction iterations as [|n IH]; intros labels cs Hll Hlb Hcl Hcd.
  - exists labels, cs. auto.
  - cbn [kmeans_loop]. unfold kmeans_iteration.
    destruct (converged (assign data cs) labels).
    + exists labels, cs. auto.
    + assert (Hne : cs <> []) by (destruct cs; [cbn in *; lia|discriminate]).
      destruct (update_centroids_shape data (assign data cs) k d) as (nc & Hrun & Hl & Hd).
      { intros i. rewrite <- Hcl. now apply nth_assign_lt. }
      { exact Hdata. }
      destruct (IH (assign data cs) nc) as (l2 & c2 & Hloop & H2); auto.
      { apply assign_length. }
      { rewrite <- Hcl. now apply assign_bound. }
      exists l2, c2. rewrite Hrun. cbn [bind]. now rewrite Hloop.
Qed.

Lemma pick_centroids_shape (rnd : nat -> nat) (data : matrix) (d : nat) :
  (forall i, rnd i < length data)%nat ->
  Forall (fun p => length p = d) data ->
  forall k i, exists cs,
    pick_centroids rnd data i k = Ok cs /\ length cs = k /\
    Forall (fun c => length c = d) cs.
Proof.
  intros Hrnd Hdata. induction k as [|k IH]; intros i.
  - exists []. auto.
  - cbn [pick_centroids].
    destruct (nth_error data (rnd i)) as [point|] eqn:Hget.
    2:{ apply nth_error_None in Hget. specialize (Hrnd i). lia. }
    destruct (IH (S i)) as (cs & Hcs & Hlen & Hd).
    exists (point :: cs). rewrite Hcs. cbn. split; [reflexivity|]. split; [now rewrite Hlen|].
    constructor; [|exact Hd].
    rewrite Forall_forall in Hdata. apply Hdata. eapply nth_error_In; eassumption.
Qed.

Lemma kmeans_unfold (rnd : nat -> nat) (data : matrix) (k maxIterations d : nat) :
  data <> [] -> Forall (fun p => length p = d) data ->
  kmeans rnd data k maxIterations
  = (cs <- pick_centroids rnd data 0 k ;;
     kmeans_loop maxIterations data k d (repeat 0%nat (length data), cs)).
Proof.
  intros Hne Hdata. destruct data as [|point0 rest]; [contradiction|].
  assert (Hd0 : length point0 = d) by now inversion Hdata.
  cbn [kmeans]. now rewrite Hd0.
Qed.

Lemma zero_labels_shape (n k : nat) :
  (0 < k)%nat ->
  length (repeat 0%nat n) = n /\ Forall (fun l => l < k)%nat (repeat 0%nat n).
Proof.
  intros Hk. split; [apply repeat_length|].
  apply Forall_forall. intros l Hin. apply repeat_spec in Hin. lia.
Qed.

Lemma kmeans_shape (rnd : nat -> nat) (data : matrix) (k maxIterations d : nat) :
  data <> [] -> (0 < k)%nat ->
  (forall i, rnd i < length data)%nat ->
  Forall (fun p => length p = d) data ->
  exists labels cs,
    kmeans rnd data k maxIterations = Ok (labels, cs) /\
    length labels = length data /\
    Forall (fun l => l < k)%nat labels /\
    length cs = k.
Proof.
  intros Hne Hk Hrnd Hdata. rewrite (kmeans_unfold rnd data k maxIterations d Hne Hdata).
  destruct (pick_centroids_shape rnd data d Hrnd Hdata k 0) as (cs & Hcs & Hlen & Hcd).
  destruct (zero_labels_shape (length data) k Hk) as [Hz1 Hz2].
  destruct (kmeans_loop_shape data k d Hk Hdata maxIterations
              (repeat 0%nat (length data)) cs Hz1 Hz2 Hlen Hcd)
    as (l2 & c2 & Hloop & Hl2 & Hb2 & Hc2 & _).
  exists l2, c2. rewrite Hcs. cbn [bind]. now rewrite Hloop.
Qed.

(** [kmeans] on non-empty data of one dimension [d] with [k >= 1] returns
    one label per point, every label the index of one of the [k] centroids
    it returns, and every centroid of dimension [d]. *)
Theorem kmeans_result_shape (rnd : nat -> nat) (data : matrix) (k maxIterations d : nat) :
  data <> [] -> (0 < k)%nat ->
  (forall i, rnd i < length data)%nat ->
  Forall (fun p => length p = d) data ->
  exists labels cs,
    kmeans rnd data k maxIterations = Ok (labels, cs) /\
    length labels = length data /\
    Forall (fun l => l < k)%nat labels /\
    length cs = k /\
    Forall (fun c => length c = d) cs.
Proof.
  intros Hne Hk Hrnd Hdata. rewrite (kmeans_unfold rnd data k maxIterations d Hne Hdata).
  destruct (pick_centroids_shape rnd data d Hrnd Hdata k 0) as (cs & Hcs & Hlen & Hcd).
  destruct (zero_labels_shape (length data) k Hk) as [Hz1 Hz2].
  destruct (kmeans_loop_shape data k d Hk Hdata maxIterations
              (repeat 0%nat (length data)) cs Hz1 Hz2 Hlen Hcd)
    as (l2 & c2 & Hloop & H2).
  exists l2, c2. rewrite Hcs. cbn [bind]. now rewrite Hloop.
Qed.

Lemma kmeans_result_shape_witness :
  exists labels cs,
    kmeans (draw_cycle 3) [[1; 1]; [2; 2]; [5; 5]] 2 100 = Ok (labels, cs) /\
    length labels = length [[1; 1]; [2; 2]; [5; 5]] /\
    Forall (fun l => l < 2)%nat labels /\
    length cs = 2%nat /\
    Forall (fun c => length c = 2%nat) cs.
Proof.
  apply (kmeans_result_shape (draw_cycle 3) [[1; 1]; [2; 2]; [5; 5]] 2 100 2).
  - discriminate.
  - lia.
  - intros i. apply Nat.mod_upper_bound. discriminate.
  - repeat constructor.
Defined.

Lemma assign_single (data : matrix) (c : list float) :
  assign data [c] = repeat 0%nat (length data).
Proof.
  induction data as [|p data IH]; [reflexivity|].
  cbn [assign map length repeat] in *. f_equal; [|exact IH].
  unfold nearest, Arr.foldi. cbn [Arr.foldi_from]. unfold nearer. cbv zeta.
  destruct (_ <? _); reflexivity.
Qed.

(** With a single cluster [kmeans] never computes a mean: the first
    assignment equals the initial labels, the loop stops at once, and the
    centroid returned is the record that was drawn. *)
Theorem kmeans_single_cluster (rnd : nat -> nat) (data : matrix) (maxIterations : nat) :
  (rnd 0 < length data)%nat ->
  kmeans rnd data 1 maxIterations
  = Ok (repeat 0%nat (length data), [nth (rnd 0%nat) data []]).
Proof.
  intros Hrnd. destruct data as [|point0 rest] eqn:Hd; [cbn in Hrnd; lia|].
  rewrite <- Hd in *.
  assert (Hkm : kmeans rnd data 1 maxIterations
                = (cs <- pick_centroids rnd data 0 1 ;;
                   kmeans_loop maxIterations data 1 (length point0)
                               (repeat 0%nat (length data), cs))).
  { now rewrite Hd. }
  rewrite Hkm. cbn [pick_centroids].
  rewrite (nth_error_nth' data [] Hrnd). cbn [bind].
  destruct maxIterations as [|n]; [reflexivity|].
  cbn [kmeans_loop]. unfold kmeans_iteration.
  rewrite assign_single. unfold converged, Arr.foldi.
  rewrite converged_zeros_from by lia. reflexivity.
Qed.

Lemma kmeans_single_cluster_witness :
  kmeans draw_first [[1]; [3]] 1 100
  = Ok (repeat 0%nat (length [[1]; [3]]), [nth (draw_first 0%nat) [[1]; [3]] []]).
Proof.
  apply (kmeans_single_cluster draw_first [[1]; [3]] 100). unfold draw_first. simpl. lia.
Defined.

Lemma converged_eq_from (labels : list nat) :
  forall (newLabels seen : list nat) (ok : bool),
    Arr.foldi_from
      (fun ok label index =>
         ok && match nth_error (seen ++ labels) index with
               | Some l => Nat.eqb label l
               | None => false
               end)
      (length seen) newLabels ok = true ->
    length newLabels = length labels ->
    newLabels = labels.
Proof.
  induction labels as [|l labels IH]; intros [|n newLabels] seen ok Hrun Hlen;
    try discriminate; [reflexivity|].
  cbn [Arr.foldi_from] in Hrun.
  rewrite nth_error_app2, Nat.sub_diag in Hrun by lia. cbn [nth_error] in Hrun.
  replace (seen ++ l :: labels) with ((seen ++ [l]) ++ labels) in Hrun
    by now rewrite <- app_assoc.
  replace (S (length seen)) with (length (seen ++ [l])) in Hrun
    by (rewrite length_app; cbn; lia).
  destruct (Nat.eqb_spec n l) as [->|Hne].
  - f_equal. eapply IH; [exact Hrun|]. cbn in Hlen. lia.
  - exfalso. rewrite andb_false_r in Hrun.
    assert (Hfalse : forall (ls : list nat) i,
               Arr.foldi_from
                 (fun ok label index =>
                    ok && match nth_error ((seen ++ [l]) ++ labels) index with
                          | Some l => Nat.eqb label l
                          | None => false
                          end) i ls false = false).
    { induction ls as [|x ls IHl]; intros i; [reflexivity|]. cbn. apply IHl. }
    rewrite Hfalse in Hrun. discriminate.
Qed.

Lemma converged_eq (newLabels labels : list nat) :
  converged newLabels labels = true -> length newLabels = length labels ->
  newLabels = labels.
Proof.
  unfold converged, Arr.foldi. apply (converged_eq_from labels newLabels [] true).
Qed.

Lemma kmeans_loop_labels_length (data : matrix) (k d : nat) :
  forall iterations labels cs labels' cs',
    kmeans_loop iterations data k d (labels, cs) = Ok (labels', cs') ->
    length labels = length data -> length labels' = length data.
Proof.
  induction iterations as [|n IH]; intros labels cs labels' cs' Hrun Hlen.
  - cbn in Hrun. injection Hrun as <- <-. exact Hlen.
  - cbn [kmeans_loop] in Hrun. unfold kmeans_iteration in Hrun.
    destruct (converged (assign data cs) labels).
    + cbn in Hrun. injection Hrun as <- <-. exact Hlen.
    + destruct (update_centroids data (assign data cs) k d) as [nc|e]; cbn in Hrun;
        [|discriminate].
      eapply IH; [exact Hrun|apply assign_length].
Qed.

Lemma kmeans_loop_one_more (data : matrix) (k d : nat) :
  forall iterations st,
    kmeans_loop (S iterations) data k d st
    = (st' <- kmeans_loop iterations data k d st ;;
       step <- kmeans_iteration data k d st' ;;
       Ok match step with
          | None => st'
          | Some st'' => st''
          end).
Proof.
  induction iterations as [|n IH]; intros st.
  - cbn [kmeans_loop bind].
    destruct (kmeans_iteration data k d st) as [[st'|]|e]; reflexivity.
  - change (kmeans_loop (S (S n)) data k d st)
      with (step <- kmeans_iteration data k d st ;;
            match step with
            | None => Ok st
            | Some st' => kmeans_loop (S n) data k d st'
            end).
    cbn [kmeans_loop].
    destruct (kmeans_iteration data k d st) as [[st'|]|e] eqn:Hstep; cbn [bind].
    + apply IH.
    + now rewrite Hstep.
    + reflexivity.
Qed.

(** Where [kmeans] has converged, that is, where one more permitted
    iteration does not change what it returns, every point carries the label
    of the first nearest centroid among those returned, and no returned
    centroid is strictly nearer to the point than the centroid of its
    label. *)
Theorem kmeans_converged_is_optimal (rnd : nat -> nat) (data : matrix)
  (k maxIterations : nat) (labels : list nat) (cs : matrix) :
  kmeans rnd data k maxIterations = Ok (labels, cs) ->
  kmeans rnd data k (S maxIterations) = Ok (labels, cs) ->
  forall i point,
    nth_error data i = Some point ->
    exists label,
      nth_error labels i = Some label /\
      label = nearest point cs /\
      forall centroid, In centroid cs ->
        (euclideanDistance point centroid
         <? euclideanDistance point (nth label cs [])) = false.
Proof.
  intros Hrun Hmore i point Hget.
  assert (Hassign : labels = assign data cs).
  { destruct data as [|point0 rest] eqn:Hd; [discriminate|]. rewrite <- Hd in *.
    assert (Hkm : forall n, kmeans rnd data k n
                    = (cs0 <- pick_centroids rnd data 0 k ;;
                       kmeans_loop n data k (length point0)
                                   (repeat 0%nat (length data), cs0))).
    { intros n. now rewrite Hd. }
    rewrite Hkm in Hrun, Hmore.
    destruct (pick_centroids rnd data 0 k) as [cs0|e]; cbn [bind] in Hrun, Hmore;
      [|discriminate].
    assert (Hlen : length labels = length data).
    { eapply kmeans_loop_labels_length; [exact Hrun|apply repeat_length]. }
    rewrite kmeans_loop_one_more, Hrun in Hmore. cbn [bind] in Hmore.
    unfold kmeans_iteration in Hmore.
    destruct (converged (assign data cs) labels) eqn:Hconv.
    - symmetry. apply converged_eq; [exact Hconv|now rewrite assign_length].
    - destruct (update_centroids data (assign data cs) k (length point0)) as [nc|e];
        cbn [bind] in Hmore; [|discriminate].
      injection Hmore as Hl _. now symmetry. }
  exists (nearest point cs). split; [|split; [reflexivity|]].
  - rewrite Hassign. unfold assign. rewrite nth_error_map, Hget. reflexivity.
  - intros centroid Hin.
    destruct (search_result point cs) as (_ & Hmin & Hidx & _).
    unfold nearest. destruct Hidx as [[Hinf _]|(c & Hc & Heq)].
    + apply FloatLt.not_below_infinity. rewrite <- Hinf. now apply Hmin.
    + rewrite (nth_error_nth _ _ [] Hc), <- Heq. now apply Hmin.
Qed.

Lemma kmeans_converged_is_optimal_witness :
  exists label,
    nth_error [0; 1]%nat 1 = Some label /\
    label = nearest [1; 1; 1; 1] [[-1; -1; -1; -1]; [1; 1; 1; 1]] /\
    forall centroid, In centroid [[-1; -1; -1; -1]; [1; 1; 1; 1]] ->
      (euclideanDistance [1; 1; 1; 1] centroid
       <? euclideanDistance [1; 1; 1; 1] (nth label [[-1; -1; -1; -1]; [1; 1; 1; 1]] []))
      = false.
Proof.
  apply (kmeans_converged_is_optimal draw_id [[-1; -1; -1; -1]; [1; 1; 1; 1]] 2 100
           [0; 1]%nat [[-1; -1; -1; -1]; [1; 1; 1; 1]]) with (i := 1%nat).
  - vm_compute. reflexivity.
  - vm_compute. reflexivity.
  - reflexivity.
Defined.

(** Once [kmeans] has converged, a larger iteration cap changes nothing. *)
Theorem kmeans_converged_is_stable (rnd : nat -> nat) (data : matrix)
  (k maxIterations d more : nat) (labels : list nat) (cs : matrix) :
  kmeans rnd data k maxIterations = Ok (labels, cs) ->
  kmeans_iteration data k d (labels, cs) = Ok None ->
  kmeans rnd data k (maxIterations + more) = Ok (labels, cs).
Proof.
  intros Hrun Hstop.
  assert (Hconv : converged (assign data cs) labels = true).
  { unfold kmeans_iteration in Hstop.
    destruct (converged (assign data cs) labels); [reflexivity|].
    destruct (update_centroids data (assign data cs) k d); discriminate. }
  destruct data as [|point0 rest] eqn:Hd; [discriminate|]. rewrite <- Hd in *.
  assert (Hkm : forall n, kmeans rnd data k n
                  = (cs0 <- pick_centroids rnd data 0 k ;;
                     kmeans_loop n data k (length point0)
                                 (repeat 0%nat (length data), cs0))).
  { intros n. now rewrite Hd. }
  rewrite Hkm in Hrun |- *.
  destruct (pick_centroids rnd data 0 k) as [cs0|e]; cbn [bind] in Hrun |- *; [|discriminate].
  revert Hrun. generalize (repeat 0%nat (length data), cs0). clear Hkm.
  induction maxIterations as [|n IH]; intros st Hrun.
  - cbn in Hrun. injection Hrun as ->.
    destruct more as [|m]; [reflexivity|].
    cbn [Nat.add kmeans_loop]. unfold kmeans_iteration. now rewrite Hconv.
  - cbn [Nat.add kmeans_loop] in Hrun |- *.
    destruct (kmeans_iteration data k (length point0) st) as [[st1|]|e]; cbn [bind] in *;
      [now apply IH|exact Hrun|discriminate].
Qed.

Lemma kmeans_converged_is_stable_witness :
  kmeans draw_id [[-1; -1; -1; -1]; [1; 1; 1; 1]] 2 (100 + 900)
  = Ok ([0; 1]%nat, [[-1; -1; -1; -1]; [1; 1; 1; 1]]).
Proof.
  apply (kmeans_converged_is_stable draw_id [[-1; -1; -1; -1]; [1; 1; 1; 1]] 2 100 4 900
           [0; 1]%nat [[-1; -1; -1; -1]; [1; 1; 1; 1]]).
  - vm_compute. reflexivity.
  - vm_compute. reflexivity.
Defined.

End KMeansResult.

(** ** Clustering: failures, counts and classification *)

Section ClusterStudents.
Import StudentClusterer.

Lemma zscore_row_length (means stds row : list float) :
  length (zscore_row means stds row) = length row.
Proof.
  unfold zscore_row, Arr.mapi. apply mapi_from_length.
Qed.

Lemma normalizeFeatures_rows (features nf : matrix) :
  normalizeFeatures features = Ok nf ->
  length nf = length features /\
  forall d, Forall (fun row => length row = d) features ->
            Forall (fun row => length row = d) nf.
Proof.
  destruct features as [|row0 rows] eqn:Hf; [discriminate|]. rewrite <- Hf.
  intros H. assert (Hnf : nf = map (zscore_row
                                     (feature_means features (length row0))
                                     (feature_stds features (length row0)
                                        (feature_means features (length row0))))
                                  features).
  { rewrite Hf in H |- *. cbn [normalizeFeatures] in H. now injection H. }
  subst nf. split; [apply length_map|].
  intros d Hd. apply Forall_forall. intros row Hin.
  apply in_map_iff in Hin as (r & <- & Hr). rewrite zscore_row_length.
  rewrite Forall_forall in Hd. now apply Hd.
Qed.

(** [normalizeFeatures] keeps the shape of its input: as many rows, and
    each row as long as the row it comes from. *)
Theorem normalizeFeatures_keeps_shape (features : matrix) :
  features <> [] ->
  exists nf,
    normalizeFeatures features = Ok nf /\
    map (@length float) nf = map (@length float) features.
Proof.
  intros Hne. destruct features as [|row0 rows] eqn:Hf; [contradiction|].
  rewrite <- Hf. eexists. split; [rewrite Hf at 1; reflexivity|]. rewrite <- Hf.
  rewrite map_map. apply map_ext. intros row. apply zscore_row_length.
Qed.

Lemma normalizeFeatures_keeps_shape_witness :
  exists nf,
    normalizeFeatures [[10; 10; 10; 10]; [90; 90; 90; 90]] = Ok nf /\
    map (@length float) nf = map (@length float) [[10; 10; 10; 10]; [90; 90; 90; 90]].
Proof.
  apply (normalizeFeatures_keeps_shape [[10; 10; 10; 10]; [90; 90; 90; 90]]). discriminate.
Defined.

Lemma summarize_all_overflow (students : list Student) (labels : list nat) (cs : matrix) :
  forall (items : list Ranked) (personaIndex : nat),
    (personaIndex <= length personas)%nat ->
    (length personas < personaIndex + length items)%nat ->
    summarize_all students labels cs personaIndex items = Throw TypeError.
Proof.
  induction items as [|item items IH]; intros personaIndex Hle Hlt.
  - cbn [length] in Hlt. lia.
  - cbn [summarize_all]. unfold summarize.
    destruct (nth_error personas personaIndex) as [p|] eqn:Hp; [|reflexivity].
    assert (Hlt' : (personaIndex < length personas)%nat).
    { apply nth_error_Some. congruence. }
    cbn [bind]. rewrite IH; [reflexivity|lia|]. cbn [length] in Hlt. lia.
Qed.

Lemma find_cluster (cl : list ClusterResult) (id : nat) :
  In id (map cluster_id cl) ->
  exists c, find (fun c => Nat.eqb (cluster_id c) id) cl = Some c /\
            cluster_id c = id /\ In c cl.
Proof.
  induction cl as [|c cl IH]; intros Hin; [contradiction|].
  cbn [find]. destruct (Nat.eqb_spec (cluster_id c) id) as [Heq|Hne].
  - exists c. repeat split; [exact Heq|now left].
  - destruct Hin as [Heq|Hin]; [contradiction|].
    destruct (IH Hin) as (c' & Hf & Hid & Hc'). exists c'. repeat split; auto. now right.
Qed.

Lemma clusterStudents_ranked (rnd : nat -> nat) (c : t) (students : list Student)
  (k : nat) :
  students <> [] -> (k <= 4)%nat ->
  (forall i, rnd i < length students)%nat ->
  exists cl cs,
    clusterStudents rnd c students k
    = ({| clusters := cl; centroids := cs; isTrained := true |}, Ok cl) /\
    length cs = k /\
    Permutation (map cluster_id cl) (seq 0 k).
Proof.
  intros Hne Hk Hrnd.
  destruct (clusterStudents_stages rnd c students k Hne Hk Hrnd)
    as (nf & labels & cs & cl & _ & _ & Hcs & Hcl & Hrun).
  destruct (summarize_all_spec students labels cs (centroidAverages cs) 0)
    as (cl' & Hcl' & _ & Hids & _).
  { rewrite centroidAverages_length, Hcs. cbn. lia. }
  rewrite Hcl in Hcl'. injection Hcl' as <-.
  destruct (centroidAverages_spec cs) as (Hperm & _ & _).
  exists cl, cs. split; [exact Hrun|]. split; [exact Hcs|].
  now rewrite Hids, <- Hcs.
Qed.

Lemma predictCluster_finds (cl : list ClusterResult) (cs : matrix)
  (student : PartialStudent) :
  cs <> [] ->
  Permutation (map cluster_id cl) (seq 0 (length cs)) ->
  exists summary,
    predictCluster {| clusters := cl; centroids := cs; isTrained := true |} student
    = Some summary /\
    In summary cl /\
    cluster_id summary = nearest (cluster_features student) cs.
Proof.
  intros Hne Hperm. unfold predictCluster. cbn [isTrained negb clusters centroids].
  destruct (find_cluster cl (nearest (cluster_features student) cs)) as (s & Hf & Hid & Hin).
  { apply (Permutation_in _ (Permutation_sym Hperm)).
    apply in_seq. split; [lia|]. cbn. now apply nearest_lt. }
  exists s. auto.
Qed.

(** The three outcomes of [clusterStudents].  On an empty list it throws
    the runtime's [TypeError] ([normalizeFeatures] reads [features[0].length])
    and leaves the clusterer as it was.  On a non-empty list with at most four
    clusters it returns one summary per cluster and stores them with the
    centroids.  With more than four clusters it throws a [TypeError] when it
    runs out of personas, after it has stored the [k] centroids and set the
    trained flag; the summaries are then those of before the call. *)
Theorem clusterStudents_outcomes (rnd : nat -> nat) (c : t)
  (students : list Student) (k : nat) :
  (students <> [] -> forall i, (rnd i < length students)%nat) ->
  (students = [] -> clusterStudents rnd c students k = (c, Throw TypeError)) /\
  (students <> [] -> (k <= 4)%nat ->
   exists cl cs,
     clusterStudents rnd c students k
     = ({| clusters := cl; centroids := cs; isTrained := true |}, Ok cl) /\
     length cl = k /\ length cs = k) /\
  (students <> [] -> (4 < k)%nat ->
   exists cs,
     clusterStudents rnd c students k
     = ({| clusters := clusters c; centroids := cs; isTrained := true |}, Throw TypeError) /\
     length cs = k).
Proof.
  intros Hdraws. split; [|split].
  - intros ->. reflexivity.
  - intros Hne Hk.
    destruct (clusterStudents_ranked rnd c students k Hne Hk (Hdraws Hne))
      as (cl & cs & Hrun & Hcs & Hperm).
    exists cl, cs. split; [exact Hrun|]. split; [|exact Hcs].
    apply Permutation_length in Hperm. now rewrite length_map, length_seq in Hperm.
  - intros Hne Hk. pose proof (Hdraws Hne) as Hrnd.
    set (features := map (fun s => [comprehension s; attention s; focus s; retention s])
                         students).
    destruct (normalizeFeatures_ok features) as (nf & Hnf & Hlen).
    { subst features. destruct students; [contradiction|discriminate]. }
    assert (Hflen : length features = length students)
      by (subst features; apply length_map).
    destruct (kmeans_ok rnd nf k 100) as (labels & cs & Hkm & Hcs).
    { destruct nf; [|discriminate]. destruct students; [contradiction|cbn in *; lia]. }
    { intros i. rewrite Hlen, Hflen. apply Hrnd. }
    exists cs. split; [|exact Hcs].
    unfold clusterStudents. fold features. rewrite Hnf, Hkm.
    rewrite summarize_all_overflow; [reflexivity|cbn; lia|].
    rewrite centroidAverages_length, Hcs. cbn. lia.
Qed.

Lemma clusterStudents_outcomes_witness :
  exists cs,
    clusterStudents draw_first new [low] 5
    = ({| clusters := clusters new; centroids := cs; isTrained := true |}, Throw TypeError) /\
    length cs = 5%nat.
Proof.
  apply (clusterStudents_outcomes draw_first new [low] 5).
  - intros _ i. unfold draw_first. simpl. lia.
  - discriminate.
  - lia.
Defined.

(** After a clustering with one to four clusters, [predictCluster] never
    answers [null]: for every record it returns one of the summaries, the one
    whose cluster id is the index [nearest] finds. *)
Theorem predictCluster_after_clustering (rnd : nat -> nat) (c : t)
  (students : list Student) (k : nat) (student : PartialStudent) :
  students <> [] -> (0 < k <= 4)%nat ->
  (forall i, rnd i < length students)%nat ->
  exists summary,
    predictCluster (fst (clusterStudents rnd c students k)) student = Some summary /\
    In summary (getClusters (fst (clusterStudents rnd c students k))) /\
    cluster_id summary
    = nearest (cluster_features student)
              (centroids (fst (clusterStudents rnd c students k))).
Proof.
  intros Hne [Hk0 Hk] Hrnd.
  destruct (clusterStudents_ranked rnd c students k Hne Hk Hrnd)
    as (cl & cs & Hrun & Hcs & Hperm).
  rewrite Hrun. cbn [fst]. unfold getClusters. cbn [clusters centroids].
  apply predictCluster_finds.
  - destruct cs; [cbn in *; lia|discriminate].
  - now rewrite Hcs.
Qed.

Lemma predictCluster_after_clustering_witness :
  exists summary,
    predictCluster (fst (clusterStudents (draw_cycle 2) new [low; high] 2)) empty_record
    = Some summary /\
    In summary (getClusters (fst (clusterStudents (draw_cycle 2) new [low; high] 2))) /\
    cluster_id summary
    = nearest (cluster_features empty_record)
              (centroids (fst (clusterStudents (draw_cycle 2) new [low; high] 2))).
Proof.
  apply (predictCluster_after_clustering (draw_cycle 2) new [low; high] 2 empty_record).
  - discriminate.
  - lia.
  - intros i. apply Nat.mod_upper_bound. discriminate.
Defined.

Lemma indicator_sum (l start count : nat) :
  list_sum (map (fun id => if Nat.eqb l id then 1 else 0)%nat (seq start count))
  = (if (start <=? l)%nat && (l <? start + count)%nat then 1 else 0)%nat.
Proof.
  revert start. induction count as [|count IH]; intros start.
  - cbn [seq map list_sum fold_right].
    destruct (Nat.leb_spec start l), (Nat.ltb_spec l (start + 0)); cbn; lia.
  - cbn [seq map]. change (list_sum (?a :: ?r)) with (a + list_sum r)%nat.
    rewrite IH.
    destruct (Nat.eqb_spec l start), (Nat.leb_spec (S start) l), (Nat.leb_spec start l),
      (Nat.ltb_spec l (S start + count)), (Nat.ltb_spec l (start + S count));
      cbn; lia.
Qed.

Lemma list_sum_map_add {A : Type} (f g : A -> nat) (l : list A) :
  list_sum (map (fun x => f x + g x)%nat l)
  = (list_sum (map f l) + list_sum (map g l))%nat.
Proof.
  unfold list_sum. induction l as [|x l IH]; [reflexivity|].
  cbn [map fold_right]. rewrite IH. lia.
Qed.

(** Every student is a member of exactly one of the [k] clusters. *)
Lemma members_cover (labels : list nat) (k : nat) :
  forall (students : list Student) (index : nat),
    (forall i, (i < length students)%nat ->
               exists l, nth_error labels (index + i) = Some l /\ (l < k)%nat) ->
    list_sum (map (fun id => length (members_from students index labels id)) (seq 0 k))
    = length students.
Proof.
  induction students as [|s students IH]; intros index Hlab.
  - cbn. induction (seq 0 k); [reflexivity|]. cbn. assumption.
  - destruct (Hlab 0%nat ltac:(cbn; lia)) as (l & Hl & Hlk). rewrite Nat.add_0_r in Hl.
    rewrite (map_ext _ (fun id => (if Nat.eqb l id then 1 else 0)
                                  + length (members_from students (S index) labels id))%nat).
    2:{ intros id. cbn [members_from]. rewrite Hl. destruct (Nat.eqb l id); reflexivity. }
    rewrite list_sum_map_add, indicator_sum, IH.
    + cbn [andb Nat.leb Nat.add length]. destruct (Nat.ltb_spec l k); [reflexivity|lia].
    + intros i Hi. destruct (Hlab (S i) ltac:(cbn; lia)) as (l' & Hl' & Hlk').
      exists l'. split; [|exact Hlk'].
      replace (S index + i)%nat with (index + S i)%nat by lia. exact Hl'.
Qed.

Lemma summarize_all_counts (students : list Student) (labels : list nat) (cs : matrix) :
  forall (items : list Ranked) (personaIndex : nat) (cl : list ClusterResult),
    summarize_all students labels cs personaIndex items = Ok cl ->
    map (fun summary => Obj.get (characteristics summary) "count") cl
    = map (fun id => Num.of_nat (length (members_from students 0 labels id)))
          (map fst items).
Proof.
  induction items as [|item items IH]; intros personaIndex cl Hrun.
  - cbn in Hrun. injection Hrun as <-. reflexivity.
  - cbn [summarize_all] in Hrun. unfold summarize in Hrun.
    destruct (nth_error personas personaIndex) as [p|]; [|discriminate].
    cbn [bind] in Hrun.
    destruct (summarize_all students labels cs (S personaIndex) items) as [cl'|e] eqn:Hrest;
      [|discriminate].
    cbn [bind] in Hrun. injection Hrun as <-.
    cbn [map]. f_equal. eapply IH. exact Hrest.
Qed.

(** After a clustering with one to four clusters, the member counts of
    the summaries add up to the number of students: every student is counted
    in exactly one cluster. *)
Theorem cluster_counts_cover_students (rnd : nat -> nat) (c : t)
  (students : list Student) (k : nat) :
  students <> [] -> (0 < k <= 4)%nat ->
  (forall i, rnd i < length students)%nat ->
  exists cl counts,
    snd (clusterStudents rnd c students k) = Ok cl /\
    map (fun summary => Obj.get (characteristics summary) "count") cl
    = map Num.of_nat counts /\
    list_sum counts = length students.
Proof.
  intros Hne [Hk0 Hk] Hrnd.
  destruct (clusterStudents_stages rnd c students k Hne Hk Hrnd)
    as (nf & labels & cs & cl & Hnf & Hkm & Hcs & Hcl & Hrun).
  set (features := map (fun s => [comprehension s; attention s; focus s; retention s])
                       students) in *.
  assert (Hflen : length features = length students) by (subst features; apply length_map).
  destruct (normalizeFeatures_rows features nf Hnf) as [Hnlen Hrows'].
  rewrite Hflen in Hnlen.
  assert (Hrows : Forall (fun p => length p = 4%nat) nf).
  { apply Hrows'. subst features. apply Forall_forall. intros p Hp.
    apply in_map_iff in Hp as (s & <- & _). reflexivity. }
  destruct (kmeans_shape rnd nf k 100 4) as (l2 & c2 & Hkm2 & Hll & Hlb & _); auto.
  { destruct nf; [|discriminate]. destruct students; [contradiction|discriminate]. }
  { intros i. rewrite Hnlen. apply Hrnd. }
  rewrite Hkm in Hkm2. injection Hkm2 as <- <-.
  destruct (centroidAverages_spec cs) as (Hperm & _ & _).
  exists cl, (map (fun id => length (members_from students 0 labels id))
                  (map fst (centroidAverages cs))).
  rewrite Hrun. cbn [snd]. split; [reflexivity|]. split.
  - rewrite (summarize_all_counts _ _ _ _ _ _ Hcl). symmetry. apply map_map.
  - rewrite (Permutation_map _ Hperm), Hcs.
    apply members_cover. intros i Hi. cbn [Nat.add].
    assert (Hil : (i < length labels)%nat) by lia.
    exists (nth i labels 0%nat). split; [now apply nth_error_nth'|].
    rewrite Forall_forall in Hlb. apply Hlb, nth_In, Hil.
Qed.

Lemma cluster_counts_cover_students_witness :
  exists cl counts,
    snd (clusterStudents (draw_cycle 2) new [low; high] 2) = Ok cl /\
    map (fun summary => Obj.get (characteristics summary) "count") cl
    = map Num.of_nat counts /\
    list_sum counts = length [low; high].
Proof.
  apply (cluster_counts_cover_students (draw_cycle 2) new [low; high] 2).
  - discriminate.
  - lia.
  - intros i. apply Nat.mod_upper_bound. discriminate.
Defined.

End ClusterStudents.

(** ** Regression: the fitted model and its predictions *)

Section Regression.
Import LinearRegressionModel FloatSign.



Lemma importance_of_coefficients (m : t) (s : PartialStudent) :
  let a := fun nm => Num.Math_abs (Obj.get (coefficients m) nm) in
  let total := 0 + a "comprehension" + a "attention" + a "focus" + a "retention"
               + a "engagement_time" in
  normalize_importance (snd (accumulate m (features_of s)))
  = map (fun nm => (nm, a nm / total * 100)) featureNames.
Proof.
  reflexivity.
Qed.

(** The importance map of every prediction has the five feature names as
    its keys, in order, and no negative value: each importance is at least
    zero, or NaN. *)
Theorem importance_keys_and_signs (m : t) (s : PartialStudent) (p : MLPrediction) :
  predict m s = Ok p ->
  Obj.keys (feature_importance p) = featureNames /\
  Forall (fun kv => nan_or_nonneg (snd kv)) (feature_importance p).
Proof.
  unfold predict. destruct (negb (isTrained m)); [discriminate|].
  pose proof (importance_of_coefficients m s) as Himp. cbv zeta in Himp.
  destruct (accumulate m (features_of s)) as [prediction importance].
  cbn [snd] in Himp. intros H. injection H as <-. cbn [feature_importance].
  rewrite Himp. split; [reflexivity|].
  assert (Htotal : sign_clear
                     (0 + Num.Math_abs (Obj.get (coefficients m) "comprehension")
                      + Num.Math_abs (Obj.get (coefficients m) "attention")
                      + Num.Math_abs (Obj.get (coefficients m) "focus")
                      + Num.Math_abs (Obj.get (coefficients m) "retention")
                      + Num.Math_abs (Obj.get (coefficients m) "engagement_time"))).
  { repeat apply add_sign; try apply abs_sign. reflexivity. }
  assert (H100 : sign_clear 100) by reflexivity.
  unfold featureNames. cbn [map].
  repeat (apply Forall_cons;
          [cbn [snd]; apply sign_clear_nonneg, mul_sign; [|exact H100];
           apply div_sign; [apply abs_sign|exact Htotal]|]).
  apply Forall_nil.
Qed.

Lemma importance_keys_and_signs_witness :
  exists p,
    predict trained_cohort (partial_of solo) = Ok p /\
    Obj.keys (feature_importance p) = featureNames /\
    Forall (fun kv => nan_or_nonneg (snd kv)) (feature_importance p).
Proof.
  eexists. split; [vm_compute; reflexivity|].
  apply (importance_keys_and_signs trained_cohort (partial_of solo)).
  vm_compute. reflexivity.
Defined.

End Regression.

(** A numeric field that holds NaN or a zero of either sign is read as 0,
    as an absent one is: [predict] and [predictCluster] give the result of
    the record with the field set to 0. *)
Theorem falsy_field_reads_as_zero (f : Field) (v : float) (s : PartialStudent) :
  Num.falsy v = true ->
  (forall m, LinearRegressionModel.predict m (set_field f (Some v) s)
             = LinearRegressionModel.predict m (set_field f (Some 0) s)) /\
  (forall c, StudentClusterer.predictCluster c (set_field f (Some v) s)
             = StudentClusterer.predictCluster c (set_field f (Some 0) s)).
Proof.
  intros Hv.
  assert (Hd : Num.or_default (Some v) 0 = Num.or_default (Some 0) 0).
  { cbn [Num.or_default]. unfold Num.or_num. now rewrite Hv. }
  split.
  - intros m. unfold LinearRegressionModel.predict, LinearRegressionModel.features_of.
    destruct f; cbn [set_field p_comprehension p_attention p_focus p_retention
                     p_engagement_time]; now rewrite Hd.
  - intros c. unfold StudentClusterer.predictCluster, StudentClusterer.cluster_features.
    destruct f; cbn [set_field p_comprehension p_attention p_focus p_retention
                     p_engagement_time]; try rewrite Hd; reflexivity.
Qed.

Lemma falsy_field_reads_as_zero_witness :
  (forall m, LinearRegressionModel.predict m (set_field Attention (Some nan) empty_record)
             = LinearRegressionModel.predict m (set_field Attention (Some 0) empty_record)) /\
  (forall c, StudentClusterer.predictCluster c (set_field Attention (Some nan) empty_record)
             = StudentClusterer.predictCluster c (set_field Attention (Some 0) empty_record)).
Proof.
  apply (falsy_field_reads_as_zero Attention nan empty_record). reflexivity.
Defined.

(** ** Matrix algebra *)

Section MatrixAlgebra.
Import LinearRegressionModel.

Lemma map_seq_nth {A : Type} (d : A) (l : list A) :
  forall f : nat -> A,
    (forall i, (i < length l)%nat -> f i = nth i l d) ->
    map f (seq 0 (length l)) = l.
Proof.
  induction l as [|x l IH]; intros f Hf; [reflexivity|].
  cbn [length seq map]. rewrite <- seq_shift, map_map. f_equal.
  - apply (Hf 0%nat). cbn. lia.
  - apply IH. intros i Hi. apply (Hf (S i)). cbn. lia.
Qed.

Lemma get_map_row (h : list float -> float) (m : matrix) (i : nat) :
  (i < length m)%nat -> Arr.get (map h m) i = h (nth i m []).
Proof.
  intros Hi. unfold Arr.get.
  rewrite (nth_indep _ nan (h [])) by now rewrite length_map.
  apply map_nth.
Qed.

(** [transpose] is an involution on rectangular matrices with at least
    one row and one column: the transpose has the dimensions swapped, and
    transposing it gives the matrix back. *)
Theorem transpose_involution (m : matrix) (cols : nat) :
  m <> [] -> (0 < cols)%nat ->
  Forall (fun row => length row = cols) m ->
  exists t,
    transpose m = Ok t /\
    length t = cols /\
    Forall (fun row => length row = length m) t /\
    transpose t = Ok m.
Proof.
  intros Hne Hcols Hrect.
  destruct m as [|row0 rows] eqn:Hm; [contradiction|]. rewrite <- Hm in *.
  assert (Hrow0 : length row0 = cols).
  { rewrite Forall_forall in Hrect. apply Hrect. rewrite Hm. now left. }
  set (t := map (fun colIndex => map (fun row => Arr.get row colIndex) m) (seq 0 cols)).
  assert (Ht : transpose m = Ok t).
  { subst t. rewrite Hm at 1. cbn [transpose]. now rewrite Hrow0, <- Hm. }
  exists t. split; [exact Ht|]. split; [subst t; now rewrite length_map, length_seq|].
  assert (Hrows : Forall (fun row => length row = length m) t).
  { subst t. apply Forall_forall. intros row Hin.
    apply in_map_iff in Hin as (col & <- & _). apply length_map. }
  split; [exact Hrows|].
  destruct t as [|t0 trest] eqn:Heq.
  { exfalso. apply (f_equal (@length (list float))) in Heq.
    unfold t in Heq. rewrite length_map, length_seq in Heq. cbn in Heq. lia. }
  rewrite <- Heq in *. rewrite Heq at 1. cbn [transpose].
  assert (Hlen0 : length t0 = length m).
  { rewrite Forall_forall in Hrows. apply Hrows. rewrite Heq. now left. }
  rewrite Hlen0, <- Heq. f_equal.
  apply (map_seq_nth []). intros i Hi.
  unfold t at 1. rewrite map_map.
  assert (Hrowi : length (nth i m []) = cols).
  { rewrite Forall_forall in Hrect. apply Hrect, nth_In, Hi. }
  rewrite <- Hrowi. apply (map_seq_nth nan). intros col Hcol.
  now rewrite get_map_row.
Qed.

Lemma transpose_involution_witness :
  exists t,
    transpose [[1; 2; 3]; [4; 5; 6]] = Ok t /\
    length t = 3%nat /\
    Forall (fun row => length row = length [[1; 2; 3]; [4; 5; 6]]) t /\
    transpose t = Ok [[1; 2; 3]; [4; 5; 6]].
Proof.
  apply (transpose_involution [[1; 2; 3]; [4; 5; 6]] 3).
  - discriminate.
  - lia.
  - repeat constructor.
Defined.

(** [matrixMultiply] throws the runtime's [TypeError] exactly when the
    left matrix has a row and the right matrix has none; otherwise the
    product has a row per row of the left matrix, each as long as the first
    row of the right one. *)
Theorem matrixMultiply_shape (a b : matrix) :
  (a <> [] -> b = [] -> matrixMultiply a b = Throw TypeError) /\
  (a = [] \/ b <> [] ->
   exists p,
     matrixMultiply a b = Ok p /\
     length p = length a /\
     Forall (fun row => length row = length (hd [] b)) p).
Proof.
  split.
  - intros Ha ->. destruct a; [contradiction|reflexivity].
  - intros H. destruct a as [|a0 a].
    + exists []. repeat split. constructor.
    + destruct H as [H|H]; [discriminate|].
      destruct b as [|b0 b]; [contradiction|].
      eexists. split; [reflexivity|]. split; [apply length_map|].
      apply Forall_forall. intros row Hin.
      apply in_map_iff in Hin as (r & <- & _).
      now rewrite length_map, length_seq.
Qed.

Lemma update_Forall {A : Type} (P : A -> Prop) (l : list A) (i : nat) (v : A) :
  Forall P l -> P v -> Forall P (Arr.update l i v).
Proof.
  revert i. induction l as [|x l IH]; intros [|i] Hl Hv; cbn; auto;
    inversion Hl; subst; constructor; auto.
Qed.

Lemma mapi_from_Forall {A B : Type} (Q : B -> Prop) (f : nat -> A -> B) (l : list A) :
  forall i,
    (forall c x, nth_error l c = Some x -> Q (f (i + c)%nat x)) ->
    Forall Q (Arr.mapi_from f i l).
Proof.
  induction l as [|x l IH]; intros i H; cbn [Arr.mapi_from]; constructor.
  - specialize (H 0%nat x eq_refl). now rewrite Nat.add_0_r in H.
  - apply IH. intros c y Hc. specialize (H (S c) y Hc). now rewrite Nat.add_succ_r in H.
Qed.

Lemma fold_set_length (f : list float -> nat -> float) (n : nat) (row : list float) :
  length row = n ->
  length (fold_left (fun r j => Arr.set r j (f r j)) (seq 0 n) row) = n.
Proof.
  intros Hlen.
  assert (H : forall js r, Forall (fun j => j < n)%nat js -> length r = n ->
                length (fold_left (fun r j => Arr.set r j (f r j)) js r) = n).
  { induction js as [|j js IH]; intros r Hjs Hr; [exact Hr|].
    inversion Hjs; subst. cbn [fold_left]. apply IH; [assumption|].
    rewrite set_length; lia. }
  apply H; [|exact Hlen]. apply Forall_forall. intros j Hj. apply in_seq in Hj. lia.
Qed.

Lemma find_pivot_row_lt (n : nat) (aug : matrix) (i : nat) :
  (i < n)%nat -> (find_pivot_row n aug i < n)%nat.
Proof.
  intros Hi. unfold find_pivot_row.
  match goal with |- (fold_left ?f _ _ < _)%nat => set (step := f) end.
  assert (H : forall ks maxRow, Forall (fun k => k < n)%nat ks -> (maxRow < n)%nat ->
                (fold_left step ks maxRow < n)%nat).
  { induction ks as [|k ks IH]; intros maxRow Hks Hmax; [exact Hmax|].
    inversion Hks; subst. cbn [fold_left]. apply IH; [assumption|].
    subst step. cbv beta. destruct (_ <? _); assumption. }
  apply H; [|exact Hi]. apply Forall_forall. intros k Hk. apply in_seq in Hk. lia.
Qed.

Lemma gauss_step_shape (n : nat) (aug : matrix) (i : nat) :
  (i < n)%nat -> length aug = n ->
  Forall (fun row => length row = (2 * n)%nat) aug ->
  length (gauss_step n aug i) = n /\
  Forall (fun row => length row = (2 * n)%nat) (gauss_step n aug i).
Proof.
  intros Hi Hlen Hrows. unfold gauss_step.
  set (maxRow := find_pivot_row n aug i).
  assert (Hmax : (maxRow < n)%nat) by now apply find_pivot_row_lt.
  assert (Hnth : forall (l : matrix) j, Forall (fun row => length row = (2 * n)%nat) l ->
                   (j < length l)%nat -> length (nth j l []) = (2 * n)%nat).
  { intros l j Hl Hj. rewrite Forall_forall in Hl. apply Hl, nth_In, Hj. }
  set (aug1 := swap_rows aug i maxRow).
  assert (H1 : length aug1 = n /\ Forall (fun row => length row = (2 * n)%nat) aug1).
  { subst aug1. unfold swap_rows. split.
    - now rewrite !update_length.
    - repeat apply update_Forall; auto; apply Hnth; auto; lia. }
  destruct H1 as [Hl1 Hr1].
  set (aug2 := Arr.update aug1 i _).
  assert (H2 : length aug2 = n /\ Forall (fun row => length row = (2 * n)%nat) aug2).
  { subst aug2. split; [now rewrite update_length|].
    apply update_Forall; [exact Hr1|].
    unfold scale_row. apply fold_set_length with (f := fun r j => Arr.get r j / _).
    apply Hnth; auto; lia. }
  destruct H2 as [Hl2 Hr2]. split.
  - unfold Arr.mapi. now rewrite mapi_from_length.
  - unfold Arr.mapi. apply mapi_from_Forall. intros c row Hc.
    assert (Hrow : length row = (2 * n)%nat).
    { rewrite Forall_forall in Hr2. eapply Hr2, nth_error_In, Hc. }
    destruct (Nat.eqb (0 + c) i); [exact Hrow|].
    unfold eliminate_row.
    now apply fold_set_length with (f := fun r j => Arr.get r j - _ * Arr.get _ j).
Qed.

Lemma augment_shape (m : matrix) :
  Forall (fun row => length row = length m) m ->
  length (augment m) = length m /\
  Forall (fun row => length row = (2 * length m)%nat) (augment m).
Proof.
  intros Hsq. unfold augment, Arr.mapi. split; [apply mapi_from_length|].
  apply mapi_from_Forall. intros c row Hc. rewrite length_app.
  assert (Hrow : length row = length m).
  { rewrite Forall_forall in Hsq. eapply Hsq, nth_error_In, Hc. }
  assert (Hc' : (c < length m)%nat) by (apply nth_error_Some; congruence).
  assert (Hid : length (nth (0 + c) (identity (length m)) []) = length m).
  { assert (Hall : Forall (fun r => length r = length m) (identity (length m))).
    { unfold identity. apply Forall_forall. intros r Hin.
      apply in_map_iff in Hin as (i & <- & _). now rewrite length_map, length_seq. }
    rewrite Forall_forall in Hall. apply Hall, nth_In.
    unfold identity. rewrite length_map, length_seq. exact Hc'. }
  rewrite Hrow, Hid. lia.
Qed.

(** [matrixInverse] of a square matrix is a square matrix of the same
    size, whatever the entries (singular or not). *)
Theorem matrixInverse_shape (m : matrix) :
  Forall (fun row => length row = length m) m ->
  length (matrixInverse m) = length m /\
  Forall (fun row => length row = length m) (matrixInverse m).
Proof.
  intros Hsq. unfold matrixInverse. set (n := length m).
  destruct (augment_shape m Hsq) as [Hl Hr]. fold n in Hl, Hr.
  assert (H : forall steps aug, Forall (fun i => i < n)%nat steps ->
                length aug = n -> Forall (fun row => length row = (2 * n)%nat) aug ->
                length (fold_left (gauss_step n) steps aug) = n /\
                Forall (fun row => length row = (2 * n)%nat)
                       (fold_left (gauss_step n) steps aug)).
  { induction steps as [|i steps IH]; intros aug His Hla Hra; [auto|].
    inversion His; subst. cbn [fold_left].
    destruct (gauss_step_shape (length m) aug i) as [Hl' Hr']; auto. }
  destruct (H (seq 0 n) (augment m)) as [Hlf Hrf]; auto.
  { apply Forall_forall. intros i Hi. apply in_seq in Hi. lia. }
  split; [now rewrite length_map|].
  apply Forall_forall. intros row Hin. apply in_map_iff in Hin as (r & <- & Hr0).
  rewrite length_skipn. rewrite Forall_forall in Hrf. rewrite (Hrf r Hr0). lia.
Qed.

Lemma matrixInverse_shape_witness :
  length (matrixInverse [[1; 2]; [2; 4]]) = length [[1; 2]; [2; 4]] /\
  Forall (fun row => length row = length [[1; 2]; [2; 4]]) (matrixInverse [[1; 2]; [2; 4]]).
Proof.
  apply (matrixInverse_shape [[1; 2]; [2; 4]]). repeat constructor.
Defined.

End MatrixAlgebra.

(** ** Utilities, data generation and the dashboard *)

Section Presentation.
Import FloatOrder FloatLt.

(** [getPerformanceLevel] is monotone: a score that is at least another
    score never gets a lower level. *)
Theorem getPerformanceLevel_monotone (a b : float) :
  (a <=? b) = true ->
  (level_rank (Utils.level (Utils.getPerformanceLevel a))
   <= level_rank (Utils.level (Utils.getPerformanceLevel b)))%nat.
Proof.
  intros Hab.
  assert (Hup : forall t, (t <=? a) = true -> (t <=? b) = true).
  { intros t Ht. exact (leb_trans _ _ _ Ht Hab). }
  unfold Utils.getPerformanceLevel.
  destruct (90 <=? a) eqn:A90; [rewrite (Hup 90 A90); cbn; lia|].
  destruct (80 <=? a) eqn:A80;
    [rewrite (Hup 80 A80); destruct (90 <=? b); cbn; lia|].
  destruct (70 <=? a) eqn:A70;
    [rewrite (Hup 70 A70); destruct (90 <=? b), (80 <=? b); cbn; lia|].
  destruct (60 <=? a) eqn:A60;
    [rewrite (Hup 60 A60); destruct (90 <=? b), (80 <=? b), (70 <=? b); cbn; lia|].
  destruct (90 <=? b), (80 <=? b), (70 <=? b), (60 <=? b); cbn; lia.
Qed.

Lemma getPerformanceLevel_monotone_witness :
  (level_rank (Utils.level (Utils.getPerformanceLevel 79.9))
   <= level_rank (Utils.level (Utils.getPerformanceLevel 80)))%nat.
Proof.
  apply (getPerformanceLevel_monotone 79.9 80). reflexivity.
Defined.

(** [generateCorrelatedValue] returns a value in [[0, 100]], or NaN,
    whatever its arguments and draws. *)
Theorem generateCorrelatedValue_in_range (r1 r2 baseValue correlation variance : float) :
  is_nan (DataGen.generateCorrelatedValue r1 r2 baseValue correlation variance) = true \/
  ((0 <=? DataGen.generateCorrelatedValue r1 r2 baseValue correlation variance) = true /\
   (DataGen.generateCorrelatedValue r1 r2 baseValue correlation variance <=? 100) = true).
Proof.
  unfold DataGen.generateCorrelatedValue. cbv zeta.
  set (raw := baseValue * correlation + (r1 - 0.5) * variance * 2
              + (r2 - 0.5) * (100 - baseValue * correlation)).
  destruct (is_nan raw) eqn:Hraw.
  - left. unfold Num.Math_min. rewrite Hraw, orb_true_r. reflexivity.
  - right. exact (clamp_in_bounds 0 100 raw eq_refl Hraw).
Qed.

Lemma disjoint_filters_length {A : Type} (p q : A -> bool) (l : list A) :
  (forall x, p x = true -> q x = false) ->
  (length (filter p l) + length (filter q l) <= length l)%nat.
Proof.
  intros Hpq. induction l as [|x l IH]; [cbn; lia|].
  cbn [filter]. destruct (p x) eqn:Hp.
  - rewrite (Hpq x Hp). cbn [length]. lia.
  - destruct (q x); cbn [length]; lia.
Qed.

(** In the dashboard statistics no student is both a top performer
    (score at least 85) and a struggling student (score below 60): the two
    counts together never exceed the number of students, which is the length
    of the list. *)
Theorem stats_counts_within_total (filtered : list Student) :
  Dashboard.totalStudents (Dashboard.stats filtered) = length filtered /\
  (Dashboard.topPerformers (Dashboard.stats filtered)
   + Dashboard.strugglingStudents (Dashboard.stats filtered)
   <= Dashboard.totalStudents (Dashboard.stats filtered))%nat.
Proof.
  unfold Dashboard.stats.
  destruct (Nat.eqb_spec (length filtered) 0) as [H0|Hn].
  - cbn. rewrite H0. lia.
  - cbn [Dashboard.totalStudents Dashboard.topPerformers Dashboard.strugglingStudents].
    split; [reflexivity|].
    apply disjoint_filters_length. intros s Hs.
    destruct (assessment_score s <? 60) eqn:Hlow; [|reflexivity].
    pose proof (leb_ltb_trans _ _ _ Hs Hlow) as H. vm_compute in H. discriminate.
Qed.

End Presentation.

Section Initialization.
Import LinearRegressionModel.

Lemma predict_trained (m : t) (s : PartialStudent) :
  isTrained m = true -> exists p, predict m s = Ok p.
Proof.
  intros Ht. unfold predict. rewrite Ht. cbn [negb].
  destruct (accumulate m (features_of s)). now eexists.
Qed.

(** The two outcomes of [initializeModels].  On an empty list it changes
    neither model: the [TypeError] of [train] is caught and the clustering is
    skipped.  On a non-empty list it trains both models: afterwards [predict]
    returns a prediction and [predictCluster] a summary, for every record. *)
Theorem initializeModels_outcomes (rnd : nat -> nat) (mlModel : t)
  (clusterer : StudentClusterer.t) (students : list Student) :
  (students <> [] -> forall i, (rnd i < length students)%nat) ->
  (students = [] ->
   Dashboard.initializeModels rnd mlModel clusterer students = (mlModel, clusterer)) /\
  (students <> [] ->
   exists mlModel' clusterer',
     Dashboard.initializeModels rnd mlModel clusterer students = (mlModel', clusterer') /\
     isTrained mlModel' = true /\
     StudentClusterer.isTrained clusterer' = true /\
     (forall record, exists p, predict mlModel' record = Ok p) /\
     (forall record, exists summary,
         StudentClusterer.predictCluster clusterer' record = Some summary)).
Proof.
  intros Hdraws. split.
  { intros ->. reflexivity. }
  intros Hne. pose proof (Hdraws Hne) as Hrnd. unfold Dashboard.initializeModels.
  destruct (fit_ok
              (map (fun s => [comprehension s; attention s; focus s; retention s;
                              engagement_time s / 100]) students)
              (map assessment_score students) featureNames) as [r Hr].
  { destruct students; [contradiction|discriminate]. }
  unfold train. rewrite Hr. cbn [bind].
  do 2 eexists. split; [reflexivity|]. split; [reflexivity|].
  destruct (clusterStudents_ranked rnd clusterer students 4 Hne (le_n 4) Hrnd)
    as (cl & cs & Hrun & Hcs & Hperm).
  rewrite Hrun. cbn [fst]. split; [reflexivity|]. split.
  - intros record. now apply predict_trained.
  - intros record.
    destruct (predictCluster_finds cl cs record) as (summary & Hs & _).
    + destruct cs; [discriminate|discriminate].
    + now rewrite Hcs.
    + now exists summary.
Qed.

Lemma initializeModels_outcomes_witness :
  exists mlModel' clusterer',
    Dashboard.initializeModels (draw_cycle 8) new StudentClusterer.new cohort
    = (mlModel', clusterer') /\
    isTrained mlModel' = true /\
    StudentClusterer.isTrained clusterer' = true /\
    (forall record, exists p, predict mlModel' record = Ok p) /\
    (forall record, exists summary,
        StudentClusterer.predictCluster clusterer' record = Some summary).
Proof.
  apply (initializeModels_outcomes (draw_cycle 8) new StudentClusterer.new cohort).
  - intros _ i. apply Nat.mod_upper_bound. discriminate.
  - discriminate.
Defined.

Lemma predictions_trained (m : t) (students : list Student) :
  isTrained m = true -> exists ps, Insights.predictions m students = Ok ps.
Proof.
  intros Ht. induction students as [|s students [ps IH]]; [now exists []|].
  cbn [Insights.predictions].
  destruct (predict_trained m (partial_of s) Ht) as [p Hp].
  rewrite Hp, IH. cbn [bind]. now eexists.
Qed.

(** The model performance panel never throws on the model that
    [initializeModels] leaves, for the same students: empty or not, whatever
    the model was before. *)
Theorem modelPerformance_after_initializeModels (rnd : nat -> nat) (mlModel : t)
  (clusterer : StudentClusterer.t) (students : list Student) :
  exists performance,
    Insights.modelPerformance
      (fst (Dashboard.initializeModels rnd mlModel clusterer students)) students
    = Ok performance.
Proof.
  destruct students as [|s students].
  - eexists. reflexivity.
  - unfold Dashboard.initializeModels.
    destruct (fit_ok
                (map (fun s => [comprehension s; attention s; focus s; retention s;
                                engagement_time s / 100]) (s :: students))
                (map assessment_score (s :: students)) featureNames) as [r Hr];
      [discriminate|].
    unfold train. rewrite Hr. cbn [bind fst].
    unfold Insights.modelPerformance.
    destruct (predictions_trained
                {| coefficients := fit_coefficients r; intercept := fit_intercept r;
                   isTrained := true |} (s :: students) eq_refl) as [ps Hps].
    rewrite Hps. cbn [bind]. now eexists.
Qed.

(** On a model that is not trained the panel throws [NotTrainedError] as
    soon as there is a student; without students it returns NaN for both
    scores and the accuracy "Low". *)
Theorem modelPerformance_untrained (mlModel : t) (students : list Student) :
  isTrained mlModel = false ->
  Insights.modelPerformance mlModel students
  = match students with
    | [] => Ok {| Insights.r2Score := nan; Insights.mse := nan;
                  Insights.accuracy := "Low" |}
    | _ :: _ => Throw NotTrainedError
    end.
Proof.
  intros Hf. destruct students as [|s students]; [reflexivity|].
  unfold Insights.modelPerformance. cbn [Insights.predictions].
  now rewrite (predict_untrained mlModel (partial_of s) Hf).
Qed.

Lemma modelPerformance_untrained_witness :
  Insights.modelPerformance new [solo] = Throw NotTrainedError.
Proof.
  apply (modelPerformance_untrained new [solo]). reflexivity.
Defined.

End Initialization.

(** ** The ranking key of the personas *)

Section PersonaRanking.
Import StudentClusterer.

Lemma zero_sign_apart_start (x : float) : zero_sign_apart (0 + x) x.
Proof.
  unfold zero_sign_apart.
  pose proof (add_spec 0 x) as H. change (Prim2SF 0) with (S754_zero false) in H.
  destruct (Prim2SF x) as [[|]| | |s m e] eqn:Hx.
  - right. split; [exact H|reflexivity].
  - left. apply Prim2SF_inj. now rewrite H, Hx.
  - left. apply Prim2SF_inj. now rewrite H, Hx.
  - left. apply Prim2SF_inj. now rewrite H, Hx.
  - left. apply Prim2SF_inj. now rewrite H, Hx.
Qed.

Lemma zero_sign_apart_add (a b c : float) :
  zero_sign_apart a b -> zero_sign_apart (a + c) (b + c).
Proof.
  intros [->|[Ha Hb]]; [now left|]. unfold zero_sign_apart.
  pose proof (add_spec a c) as Hac. pose proof (add_spec b c) as Hbc.
  rewrite Ha in Hac. rewrite Hb in Hbc.
  destruct (Prim2SF c) as [[|]| | |s m e] eqn:Hc.
  - right. split; [exact Hac|exact Hbc].
  - left. apply Prim2SF_inj. now rewrite Hac, Hbc.
  - left. apply Prim2SF_inj. now rewrite Hac, Hbc.
  - left. apply Prim2SF_inj. now rewrite Hac, Hbc.
  - left. apply Prim2SF_inj. now rewrite Hac, Hbc.
Qed.

Lemma zero_sign_apart_quarter (a b : float) :
  zero_sign_apart a b -> zero_sign_apart (a / 4) (b / 4).
Proof.
  intros [->|[Ha Hb]]; [now left|]. right.
  rewrite !div_spec, Ha, Hb. split; reflexivity.
Qed.

Lemma zero_sign_apart_nan (a b : float) :
  zero_sign_apart a b -> is_nan a = is_nan b.
Proof.
  intros [->|[Ha Hb]]; [reflexivity|].
  now rewrite !FloatOrder.is_nan_spec, Ha, Hb.
Qed.

Lemma zero_sign_apart_leb (a b a' b' : float) :
  zero_sign_apart a b -> zero_sign_apart a' b' -> (a <=? a') = (b <=? b').
Proof.
  intros Hab Hab'. rewrite !leb_spec.
  assert (Hl : forall s y, SFleb (S754_zero s) y = SFleb (S754_zero false) y)
    by (intros [|] [?| | |? ? ?]; reflexivity).
  assert (Hr : forall s x, SFleb x (S754_zero s) = SFleb x (S754_zero false))
    by (intros [|] [?| | |? ? ?]; reflexivity).
  destruct Hab as [->|[Ha Hb]], Hab' as [->|[Ha' Hb']];
    rewrite ?Ha, ?Hb, ?Ha', ?Hb'; [reflexivity|apply eq_sym, Hr|apply eq_sym, Hl|].
  reflexivity.
Qed.

(** On a centroid of four dimensions the average the code computes and
    the mean of the four dimensions are the same number; they can differ in
    the sign of a zero only, which no comparison sees. *)
Lemma centroid_average_is_mean_of_four (centroid : list float) :
  length centroid = 4%nat ->
  zero_sign_apart (centroid_average centroid) (mean_of_four centroid).
Proof.
  destruct centroid as [|c0 [|c1 [|c2 [|c3 [|]]]]]; try discriminate. intros _.
  unfold centroid_average, mean_of_four. cbn [fold_left length nth].
  change (Num.of_nat 4) with 4.
  apply zero_sign_apart_quarter. do 3 apply zero_sign_apart_add.
  apply zero_sign_apart_start.
Qed.

Lemma clusterStudents_centroid_dims (rnd : nat -> nat) (c : t)
  (students : list Student) (k : nat) :
  students <> [] -> (k <= 4)%nat ->
  (forall i, rnd i < length students)%nat ->
  Forall (fun centroid => length centroid = 4%nat)
         (centroids (fst (clusterStudents rnd c students k))).
Proof.
  intros Hne Hk Hrnd.
  destruct (clusterStudents_stages rnd c students k Hne Hk Hrnd)
    as (nf & labels & cs & cl & Hnf & Hkm & Hcs & _ & Hrun).
  rewrite Hrun. cbn [fst centroids].
  destruct k as [|k'].
  { destruct cs; [constructor|discriminate]. }
  set (features := map (fun s => [comprehension s; attention s; focus s; retention s])
                       students) in Hnf.
  destruct (normalizeFeatures_rows features nf Hnf) as [Hnlen Hrows].
  assert (Hflen : length features = length students) by (subst features; apply length_map).
  assert (Hdata : Forall (fun p => length p = 4%nat) nf).
  { apply Hrows. subst features. apply Forall_forall. intros p Hp.
    apply in_map_iff in Hp as (s & <- & _). reflexivity. }
  assert (Hnfne : nf <> []).
  { destruct nf; [|discriminate]. destruct students; [contradiction|discriminate]. }
  assert (Hdraw : forall i, (rnd i < length nf)%nat).
  { intros i. rewrite Hnlen, Hflen. apply Hrnd. }
  rewrite (kmeans_unfold rnd nf (S k') 100 4 Hnfne Hdata) in Hkm.
  destruct (pick_centroids_shape rnd nf 4 Hdraw Hdata (S k') 0) as (cs0 & Hcs0 & Hlen0 & Hd0).
  destruct (zero_labels_shape (length nf) (S k') (Nat.lt_0_succ k')) as [Hz1 Hz2].
  destruct (kmeans_loop_shape nf (S k') 4 (Nat.lt_0_succ k') Hdata 100
              (repeat 0%nat (length nf)) cs0 Hz1 Hz2 Hlen0 Hd0)
    as (l2 & c2 & Hloop & _ & _ & _ & Hdims).
  rewrite Hcs0 in Hkm. cbn [bind] in Hkm. rewrite Hloop in Hkm.
  injection Hkm as _ <-. exact Hdims.
Qed.

(** C8.  After clustering, every centroid having four dimensions whose
    mean is a number: each cluster id is ranked once, the cluster at rank
    [i] carries the [i]-th persona, the means of the four dimensions do not
    increase along the ranks, and the cluster labelled "High Achievers" has
    a mean that no centroid exceeds, whatever ids k-means gave the
    clusters. *)
Theorem personas_follow_centroid_means (rnd : nat -> nat) (c : t)
  (students : list Student) (k : nat) :
  students <> [] -> (k <= 4)%nat ->
  (forall i, rnd i < length students)%nat ->
  (forall centroid,
      In centroid (centroids (fst (clusterStudents rnd c students k))) ->
      is_nan (mean_of_four centroid) = false) ->
  exists c' cl,
    clusterStudents rnd c students k = (c', Ok cl) /\
    clusters c' = cl /\
    length (centroids c') = k /\
    Forall (fun centroid => length centroid = 4%nat) (centroids c') /\
    Permutation (map cluster_id cl) (seq 0 k) /\
    (forall i ci, nth_error cl i = Some ci ->
       exists p, nth_error personas i = Some p /\ persona ci = persona_name p) /\
    (forall i j ci cj,
       (i < j)%nat -> nth_error cl i = Some ci -> nth_error cl j = Some cj ->
       (centroid_mean c' (cluster_id cj) <=? centroid_mean c' (cluster_id ci)) = true) /\
    (forall top,
       nth_error cl 0 = Some top ->
       persona top = "High Achievers" /\
       forall id, (id < k)%nat ->
         (centroid_mean c' id <=? centroid_mean c' (cluster_id top)) = true).
Proof.
  intros Hne Hk Hrnd Hnan.
  pose proof (clusterStudents_centroid_dims rnd c students k Hne Hk Hrnd) as Hdims.
  rewrite Forall_forall in Hdims.
  destruct (ranking_by_centroid_average rnd c students k Hne Hk Hrnd)
    as (c' & cl & Hrun & Hcl & Hlen & Hperm & Hpers & Hdesc & Htop).
  { intros centroid Hin.
    rewrite (zero_sign_apart_nan _ _ (centroid_average_is_mean_of_four centroid
                                        (Hdims centroid Hin))).
    now apply Hnan. }
  rewrite Hrun in Hdims. cbn [fst] in Hdims.
  assert (Hkey : forall id, (id < k)%nat ->
             zero_sign_apart (centroid_average (nth id (centroids c') []))
                             (centroid_mean c' id)).
  { intros id Hid. apply centroid_average_is_mean_of_four, Hdims, nth_In. lia. }
  assert (Hid : forall i ci, nth_error cl i = Some ci -> (cluster_id ci < k)%nat).
  { intros i ci Hi.
    assert (Hin : In (cluster_id ci) (seq 0 k)).
    { apply (Permutation_in _ Hperm), in_map. eapply nth_error_In; eassumption. }
    apply in_seq in Hin. lia. }
  exists c', cl. split; [exact Hrun|]. split; [exact Hcl|]. split; [exact Hlen|].
  split; [now apply Forall_forall|]. split; [exact Hperm|]. split; [exact Hpers|].
  split.
  - intros i j ci cj Hij Hi Hj.
    rewrite <- (zero_sign_apart_leb _ _ _ _ (Hkey _ (Hid j cj Hj)) (Hkey _ (Hid i ci Hi))).
    now apply (Hdesc i j).
  - intros top Htop0. destruct (Htop top Htop0) as [Hname Hmax].
    split; [exact Hname|]. intros id Hlt.
    rewrite <- (zero_sign_apart_leb _ _ _ _ (Hkey id Hlt) (Hkey _ (Hid 0%nat top Htop0))).
    now apply Hmax.
Qed.

Lemma personas_follow_centroid_means_witness :
  exists c' cl,
    clusterStudents (draw_cycle 2) new [low; high] 2 = (c', Ok cl) /\
    clusters c' = cl /\
    length (centroids c') = 2%nat /\
    Forall (fun centroid => length centroid = 4%nat) (centroids c') /\
    Permutation (map cluster_id cl) (seq 0 2) /\
    (forall i ci, nth_error cl i = Some ci ->
       exists p, nth_error personas i = Some p /\ persona ci = persona_name p) /\
    (forall i j ci cj,
       (i < j)%nat -> nth_error cl i = Some ci -> nth_error cl j = Some cj ->
       (centroid_mean c' (cluster_id cj) <=? centroid_mean c' (cluster_id ci)) = true) /\
    (forall top,
       nth_error cl 0 = Some top ->
       persona top = "High Achievers" /\
       forall id, (id < 2)%nat ->
         (centroid_mean c' id <=? centroid_mean c' (cluster_id top)) = true).
Proof.
  apply (personas_follow_centroid_means (draw_cycle 2) new [low; high] 2).
  - discriminate.
  - lia.
  - intros i. apply Nat.mod_upper_bound. discriminate.
  - vm_compute. intros centroid [<-|[<-|[]]]; reflexivity.
Defined.

End PersonaRanking.
